(** * Macaroons: signature chain, binding, verification, serialisation

    A shallow embedding of the [macaroon] package (type [Macaroon], its
    caveats, the signature chain, [Bind], [Verify], the serialisable
    documents, the third-party caveat id codec) and of
    [bakery.Discharger.Discharge].

    Go values are modelled as follows.
    - [string] is a Go string (a sequence of 8-bit characters), [bytes] a
      Go [[]byte]; a nil slice and an empty slice are both [[]] (the code
      only ever asks for their length and their contents).
    - [(T, error)] results whose value is the zero value on failure are the
      sum type [result]; results where both components matter
      ([(bool, error)], [hex.DecodeString]) are pairs with an
      [option error].
    - methods with a pointer receiver that mutate it return the new
      receiver.
    - the random source read by [newNonce] and [encrypt] is threaded
      explicitly. *)

From Stdlib Require Import Strings.Byte Strings.Ascii Strings.String.
From Stdlib Require Import NArith.
From stdpp Require Import base decidable option list strings gmap.

Local Open Scope string_scope.
Local Open Scope list_scope.

(** ** Bytes, errors, results *)

Abbreviation bytes := (list byte).

#[global] Instance byte_eq_dec : EqDecision byte := Byte.byte_eq_dec.

(** [[]byte(s)] and [string(b)]. *)
Definition bytes_of_string (s : string) : bytes := list_byte_of_string s.
Definition string_of_bytes (b : bytes) : string := string_of_list_byte b.

(** [bytes.Equal] and [hmac.Equal] both decide equality of contents (the
    second in constant time). *)
Definition bytes_Equal (a b : bytes) : bool := bool_decide (a = b).
Definition hmac_Equal (a b : bytes) : bool := bool_decide (a = b).

(** The error values of the two packages.  [ErrOther] stands for the
    errors made by collaborators (checkers, decoders, the cipher, the JSON
    codec); the others are the ones built in the code under study, with the
    values their messages are formatted from. *)
Inductive error : Type :=
| ErrOther (msg : string)
| ErrLength                                   (* hex: odd length input *)
| InvalidByteError (c : ascii)                (* hex: invalid byte *)
| ErrDecodeVerificationId (vid : string) (e : error)
| ErrDecodeSignature (sig : bytes) (e : error)
| ErrUnmarshalCaveatId (e : error)
| ErrDecryptCaveat (i : nat) (e : error)      (* failed to decrypt caveat i signature *)
| ErrDischargeNotFound (i : nat)              (* cannot find discharge macaroon for caveat i *)
| ErrSignatureMismatch                        (* signature mismatch after caveat verification *)
| ErrCannotDecodeCaveatId (e : error).        (* discharger cannot decode caveat id *)

Inductive result (A : Type) : Type :=
| Ok (a : A)
| Err (e : error).
Arguments Ok {A} a.
Arguments Err {A} e.

(** ** encoding/hex *)

Module hex.

(** [hextable = "0123456789abcdef"], indexed by a nibble. *)
Definition hextable : string := "0123456789abcdef".

Definition hexdigit (n : N) : ascii :=
  match String.get (N.to_nat n) hextable with
  | Some c => c
  | None => "0"%char
  end.

(** The value of a hexadecimal digit; both cases of the letters are
    accepted. *)
Definition fromHexChar (c : ascii) : option N :=
  let n := N_of_ascii c in
  if ((48 <=? n) && (n <=? 57))%N then Some (n - 48)%N
  else if ((97 <=? n) && (n <=? 102))%N then Some (n - 97 + 10)%N
  else if ((65 <=? n) && (n <=? 70))%N then Some (n - 65 + 10)%N
  else None.

Definition byte_of_N (n : N) : byte :=
  match Byte.of_N n with
  | Some b => b
  | None => x00
  end.

(** [hex.EncodeToString]: two digits for each byte, high nibble first. *)
Fixpoint EncodeToString (src : bytes) : string :=
  match src with
  | [] => EmptyString
  | v :: rest =>
      String (hexdigit (N.shiftr (Byte.to_N v) 4))
        (String (hexdigit (N.land (Byte.to_N v) 15)) (EncodeToString rest))
  end.

(** [hex.DecodeString]: the bytes decoded before the first error, and the
    error.  A bad character is reported before a bad length. *)
Fixpoint DecodeString (s : string) : bytes * option error :=
  match s with
  | EmptyString => ([], None)
  | String p EmptyString =>
      match fromHexChar p with
      | None => ([], Some (InvalidByteError p))
      | Some _ => ([], Some ErrLength)
      end
  | String p (String q rest) =>
      match fromHexChar p with
      | None => ([], Some (InvalidByteError p))
      | Some a =>
          match fromHexChar q with
          | None => ([], Some (InvalidByteError q))
          | Some b =>
              let '(dst, err) := DecodeString rest in
              (byte_of_N (N.lor (N.shiftl a 4) b) :: dst, err)
          end
      end
  end.

(** What a well-formed hexadecimal text is, stated without the decoder:
    an even number of characters, each of them a hexadecimal digit. *)
Definition is_digit (c : ascii) : bool :=
  match fromHexChar c with Some _ => true | None => false end.

Fixpoint all_digits (s : string) : bool :=
  match s with
  | EmptyString => true
  | String c rest => is_digit c && all_digits rest
  end.

Definition well_formed (s : string) : bool :=
  Nat.even (String.length s) && all_digits s.

End hex.

(** ** hash.Hash *)

(** A running hash: the function applied at the end and the bytes written
    so far.  [Write] appends to the input, [Sum b] appends the digest of the
    input to [b] and leaves the state alone. *)
Record Hash : Type := mkHash {
  h_digest : bytes -> bytes;
  h_written : bytes
}.

Definition Write (h : Hash) (p : bytes) : Hash :=
  {| h_digest := h_digest h; h_written := h_written h ++ p |}.

Definition Sum (h : Hash) (b : bytes) : bytes :=
  b ++ h_digest h (h_written h).

(** ** Caveats *)

Module Caveat.

Record t : Type := mk {
  location : string;
  caveatId : string;
  verificationId : bytes
}.

(** [CaveatDoc]: the serialisable document of a caveat. *)
Record Doc : Type := mkDoc {
  Location : string;
  CID : string;
  VID : string
}.

Definition MarshalDoc (cav : t) : Doc :=
  {| Location := location cav;
     CID := caveatId cav;
     VID := hex.EncodeToString (verificationId cav) |}.

(** The receiver is overwritten field by field; the error, if any, comes
    last. *)
Definition UnmarshalDoc (cav : t) (doc : Doc) : t * option error :=
  let cav := {| location := Location doc;
                caveatId := caveatId cav;
                verificationId := verificationId cav |} in
  let cav := {| location := location cav;
                caveatId := CID doc;
                verificationId := verificationId cav |} in
  let '(vid, err) := hex.DecodeString (VID doc) in
  let cav := {| location := location cav;
                caveatId := caveatId cav;
                verificationId := vid |} in
  match err with
  | Some e => (cav, Some (ErrDecodeVerificationId (VID doc) e))
  | None => (cav, None)
  end.

Definition IsThirdParty (cav : t) : bool :=
  (0 <? length (verificationId cav))%nat.

End Caveat.

(** ** The macaroon and its document *)

Module Macaroon.

Record t : Type := mk {
  location : string;
  id : string;
  caveats : list Caveat.t;
  sig : bytes
}.

(** [MacaroonDoc]; the signature is hex-encoded. *)
Record Doc : Type := mkDoc {
  Caveats : list Caveat.t;
  Location : string;
  Identifier : string;
  Signature : string
}.

End Macaroon.

(** [ThirdPartyCaveatId]: what a third-party caveat id decrypts to. *)
Module ThirdPartyCaveatId.

Record t : Type := mk {
  RootKey : bytes;
  Caveat : string
}.

End ThirdPartyCaveatId.

(** ** The primitives the package builds on

    The file [crypto.go] of the package (the keyed hash, the cipher and the
    nonces) and Go's [crypto/sha256], [encoding/base64] and
    [encoding/json] are taken as an interface.  [entropy] is the state of
    the system's random source, which [newNonce] and [encrypt] read and
    advance. *)
Class Primitives : Type := {
  entropy : Type;
  (** HMAC-SHA256 of a message (second argument) under a key (first). *)
  hmac_sha256 : bytes -> bytes -> bytes;
  (** SHA-256 of a message. *)
  sha256_digest : bytes -> bytes;
  (** A fresh nonce, or the error of the random source. *)
  newNonce : entropy -> result bytes * entropy;
  (** [encrypt key text] and [decrypt key ciphertext]. *)
  encrypt : bytes -> bytes -> entropy -> result bytes * entropy;
  decrypt : bytes -> bytes -> result bytes;
  (** [base64.StdEncoding]. *)
  base64_EncodeToString : bytes -> string;
  base64_DecodeString : string -> result bytes;
  (** [json.Marshal] and [json.Unmarshal] at type [ThirdPartyCaveatId]. *)
  json_Marshal : ThirdPartyCaveatId.t -> result bytes;
  json_Unmarshal : bytes -> result ThirdPartyCaveatId.t
}.

Section MacaroonPackage.

Context `{P : Primitives}.

(** Modelled from the spec: [keyedHasher] and [keyedHash] are defined in
    [crypto.go], which is not among the sources; the spec describes them
    as keyed hashing, deterministic and of fixed output width, and
    [keyed_hash(root_key, id)] as the hash of the identifier under the
    root key.  [keyedHasher key] is a running HMAC-SHA256 under [key]. *)
Definition keyedHasher (key : bytes) : Hash :=
  {| h_digest := hmac_sha256 key; h_written := [] |}.

Definition keyedHash (key : bytes) (text : string) : bytes :=
  let h := keyedHasher key in
  let h := Write h (bytes_of_string text) in
  Sum h [].

(** [sha256.New()]. *)
Definition sha256_New : Hash :=
  {| h_digest := sha256_digest; h_written := [] |}.

(** [New]: a macaroon with the given root key, identifier and
    location. *)
Definition New (rootKey : bytes) (id loc : string) : Macaroon.t :=
  let m := {| Macaroon.location := loc; Macaroon.id := id;
              Macaroon.caveats := []; Macaroon.sig := [] |} in
  {| Macaroon.location := Macaroon.location m;
     Macaroon.id := Macaroon.id m;
     Macaroon.caveats := Macaroon.caveats m;
     Macaroon.sig := keyedHash rootKey (Macaroon.id m) |}.

(** [Clone]: the caveats are copied into a new slice. *)
Definition Clone (m : Macaroon.t) : Macaroon.t :=
  {| Macaroon.location := Macaroon.location m;
     Macaroon.id := Macaroon.id m;
     Macaroon.caveats := Macaroon.caveats m;
     Macaroon.sig := Macaroon.sig m |}.

Definition addCaveat (m : Macaroon.t) (caveatId : string)
    (verificationId : bytes) (loc : string) : Macaroon.t :=
  let caveats' :=
    Macaroon.caveats m ++
    [ {| Caveat.location := loc;
         Caveat.caveatId := caveatId;
         Caveat.verificationId := verificationId |} ] in
  let sig := keyedHasher (Macaroon.sig m) in
  let sig := Write sig verificationId in
  let sig := Write sig (bytes_of_string caveatId) in
  {| Macaroon.location := Macaroon.location m;
     Macaroon.id := Macaroon.id m;
     Macaroon.caveats := caveats';
     Macaroon.sig := Sum sig [] |}.

(** [bindForRequest] binds a discharge signature to the signature of
    the root macaroon. *)
Definition bindForRequest (rootSig dischargeSig : bytes) : bytes :=
  if bytes_Equal rootSig dischargeSig then rootSig
  else
    let sig := sha256_New in
    let sig := Write sig rootSig in
    let sig := Write sig dischargeSig in
    Sum sig [].

Definition Bind (m : Macaroon.t) (rootSig : bytes) : Macaroon.t :=
  {| Macaroon.location := Macaroon.location m;
     Macaroon.id := Macaroon.id m;
     Macaroon.caveats := Macaroon.caveats m;
     Macaroon.sig := bindForRequest rootSig (Macaroon.sig m) |}.

Definition AddFirstPartyCaveat (m : Macaroon.t) (caveatId : string)
    : Macaroon.t :=
  addCaveat m caveatId [] "".

Definition DecryptThirdPartyCaveatId (secret : bytes) (id : string)
    : result ThirdPartyCaveatId.t :=
  match base64_DecodeString id with
  | Err err => Err err
  | Ok decodedId =>
      match decrypt secret decodedId with
      | Err err => Err err
      | Ok plain =>
          match json_Unmarshal plain with
          | Err err => Err (ErrUnmarshalCaveatId err)
          | Ok c => Ok c
          end
      end
  end.

(** [AddThirdPartyCaveat]: the caveat id (or the error), the macaroon
    afterwards and the random source afterwards.  On every error the
    macaroon is as it was. *)
Definition AddThirdPartyCaveat (m : Macaroon.t) (thirdPartySecret : bytes)
    (caveat loc : string) (g : entropy)
    : result string * Macaroon.t * entropy :=
  match newNonce g with
  | (Err err, g) => (Err err, m, g)
  | (Ok nonce, g) =>
      match json_Marshal
              {| ThirdPartyCaveatId.RootKey := nonce;
                 ThirdPartyCaveatId.Caveat := caveat |} with
      | Err err => (Err err, m, g)
      | Ok data =>
          match encrypt thirdPartySecret data g with
          | (Err err, g) => (Err err, m, g)
          | (Ok caveatId, g) =>
              match encrypt (Macaroon.sig m) nonce g with
              | (Err err, g) => (Err err, m, g)
              | (Ok verificationId, g) =>
                  let encCaveatId := base64_EncodeToString caveatId in
                  (Ok encCaveatId,
                   addCaveat m encCaveatId verificationId loc, g)
              end
          end
      end
  end.

(** *** Verification *)

(** What one turn of the loop over the caveats does: go on with a new
    running signature, or return from [verify]. *)
Inductive turn : Type :=
| Continue (caveatSig : bytes)
| Return (ok : bool) (err : option error).

(** The chaining step at the end of the loop body; [caveatSig[:0]] is
    the empty prefix of the old running signature. *)
Definition foldCaveat (caveatSig : bytes) (cav : Caveat.t) : bytes :=
  let sig := keyedHasher caveatSig in
  let sig := Write sig (Caveat.verificationId cav) in
  let sig := Write sig (bytes_of_string (Caveat.caveatId cav)) in
  Sum sig [].

Section Loop.

(** [check] is the caller's checker, [discharges] the discharge
    macaroons by caveat id (the macaroons in the map are taken to be
    non-nil), and [verifyDischarge dm cavKey] the recursive call
    [dm.verify(rootSig, cavKey, check, discharges)], which gives [None]
    when it does not return. *)
Variable check : string -> bool * option error.
Variable discharges : gmap string Macaroon.t.
Variable verifyDischarge :
  Macaroon.t -> bytes -> option (bool * option error).

(** The body of the loop for caveat number [i]. *)
Definition verifyCaveat (i : nat) (cav : Caveat.t) (caveatSig : bytes)
    : option turn :=
  if Caveat.IsThirdParty cav then
    match decrypt caveatSig (Caveat.verificationId cav) with
    | Err err => Some (Return false (Some (ErrDecryptCaveat i err)))
    | Ok cavKey =>
        match discharges !! Caveat.caveatId cav with
        | None => Some (Return false (Some (ErrDischargeNotFound i)))
        | Some dm =>
            match verifyDischarge dm cavKey with
            | None => None
            | Some (ok, err) =>
                if negb ok then Some (Return false err)
                else Some (Continue (foldCaveat caveatSig cav))
            end
        end
    end
  else
    let '(ok, err) := check (Caveat.caveatId cav) in
    if negb ok then Some (Return false err)
    else Some (Continue (foldCaveat caveatSig cav)).

(** The loop, from caveat number [i] on. *)
Fixpoint verifyCaveats (i : nat) (caveats : list Caveat.t)
    (caveatSig : bytes) : option turn :=
  match caveats with
  | [] => Some (Continue caveatSig)
  | cav :: rest =>
      match verifyCaveat i cav caveatSig with
      | None => None
      | Some (Return ok err) => Some (Return ok err)
      | Some (Continue caveatSig) => verifyCaveats (S i) rest caveatSig
      end
  end.

End Loop.

(** [verify].  The recursion goes through the discharge map, which may
    send a caveat of a discharge macaroon back to that macaroon, so the
    depth of the recursion is bounded by [fuel]; [None] is a run that
    needs more. *)
Fixpoint verify (fuel : nat) (m : Macaroon.t) (rootSig rootKey : bytes)
    (check : string -> bool * option error)
    (discharges : gmap string Macaroon.t)
    : option (bool * option error) :=
  match fuel with
  | O => None
  | S fuel =>
      let rootSig :=
        if (length rootSig =? 0)%nat then Macaroon.sig m else rootSig in
      let caveatSig := keyedHash rootKey (Macaroon.id m) in
      match verifyCaveats check discharges
              (fun dm cavKey => verify fuel dm rootSig cavKey check discharges)
              0 (Macaroon.caveats m) caveatSig with
      | None => None
      | Some (Return ok err) => Some (ok, err)
      | Some (Continue caveatSig) =>
          let boundSig := bindForRequest rootSig caveatSig in
          if negb (hmac_Equal boundSig (Macaroon.sig m)) then
            Some (false, Some ErrSignatureMismatch)
          else Some (true, None)
      end
  end.

(** The recursive call that [verify] makes for a discharge macaroon
    when it has [fuel] left and binds against [rootSig]. *)
Definition discharge (fuel : nat) (rootSig : bytes)
    (check : string -> bool * option error)
    (discharges : gmap string Macaroon.t)
    : Macaroon.t -> bytes -> option (bool * option error) :=
  fun dm cavKey => verify fuel dm rootSig cavKey check discharges.

Definition Verify (fuel : nat) (m : Macaroon.t) (rootKey : bytes)
    (check : string -> bool * option error)
    (discharges : gmap string Macaroon.t)
    : option (bool * option error) :=
  verify fuel m (Macaroon.sig m) rootKey check discharges.

(** *** Documents *)

Definition MarshalDoc (m : Macaroon.t) : Macaroon.Doc :=
  {| Macaroon.Location := Macaroon.location m;
     Macaroon.Identifier := Macaroon.id m;
     Macaroon.Signature := hex.EncodeToString (Macaroon.sig m);
     Macaroon.Caveats := Macaroon.caveats m |}.

(** [UnmarshalDoc] assigns the fields of the receiver one after the
    other and returns as soon as the signature fails to decode. *)
Definition UnmarshalDoc (m : Macaroon.t) (doc : Macaroon.Doc)
    : Macaroon.t * option error :=
  let m := {| Macaroon.location := Macaroon.Location doc;
              Macaroon.id := Macaroon.id m;
              Macaroon.caveats := Macaroon.caveats m;
              Macaroon.sig := Macaroon.sig m |} in
  let m := {| Macaroon.location := Macaroon.location m;
              Macaroon.id := Macaroon.Identifier doc;
              Macaroon.caveats := Macaroon.caveats m;
              Macaroon.sig := Macaroon.sig m |} in
  let '(sig, err) := hex.DecodeString (Macaroon.Signature doc) in
  let m := {| Macaroon.location := Macaroon.location m;
              Macaroon.id := Macaroon.id m;
              Macaroon.caveats := Macaroon.caveats m;
              Macaroon.sig := sig |} in
  match err with
  | Some e => (m, Some (ErrDecodeSignature (Macaroon.sig m) e))
  | None =>
      ({| Macaroon.location := Macaroon.location m;
          Macaroon.id := Macaroon.id m;
          Macaroon.caveats := Macaroon.Caveats doc;
          Macaroon.sig := Macaroon.sig m |}, None)
  end.

End MacaroonPackage.

(** ** The caveats of a document on the wire

    [json.Marshal] and [json.Unmarshal] call [MarshalJSON] and
    [UnmarshalJSON] of every caveat of a [MacaroonDoc]; both go through the
    caveat's own document.  The JSON text in between is left out: a
    marshalled caveat array is the list of its caveat documents, and
    unmarshalling fills a zero [Caveat] from each of them and stops at the
    first error. *)
Definition zeroCaveat : Caveat.t :=
  {| Caveat.location := ""; Caveat.caveatId := "";
     Caveat.verificationId := [] |}.

Definition marshalCaveats (caveats : list Caveat.t) : list Caveat.Doc :=
  map Caveat.MarshalDoc caveats.

Fixpoint unmarshalCaveats (docs : list Caveat.Doc) : result (list Caveat.t) :=
  match docs with
  | [] => Ok []
  | doc :: rest =>
      match Caveat.UnmarshalDoc zeroCaveat doc with
      | (_, Some err) => Err err
      | (cav, None) =>
          match unmarshalCaveats rest with
          | Err err => Err err
          | Ok caveats => Ok (cav :: caveats)
          end
      end
  end.

(** ** Sequences of caveat additions and the chain they should produce *)

Inductive addition : Type :=
| FirstParty (caveatId : string)
| ThirdParty (thirdPartySecret : bytes) (caveat loc : string).

Section Chain.

Context `{P : Primitives}.

(** One addition; a third-party addition that fails leaves the macaroon
    as it was. *)
Definition add (st : Macaroon.t * entropy) (a : addition)
    : Macaroon.t * entropy :=
  let '(m, g) := st in
  match a with
  | FirstParty caveatId => (AddFirstPartyCaveat m caveatId, g)
  | ThirdParty secret caveat loc =>
      let '(_, m, g) := AddThirdPartyCaveat m secret caveat loc g in (m, g)
  end.

Definition addAll (m : Macaroon.t) (g : entropy) (l : list addition)
    : Macaroon.t * entropy :=
  fold_left add l (m, g).

(** The chaining rule in the words of the specification:
    [signature' = keyed_hash_with_key(signature, verification_id || caveat_id)]. *)
Definition chainRule (signature : bytes) (cav : Caveat.t) : bytes :=
  hmac_sha256 signature
    (Caveat.verificationId cav ++ bytes_of_string (Caveat.caveatId cav)).

(** The fold of the rule over a caveat sequence, from
    [keyed_hash(root_key, id)]. *)
Definition chainSignature (rootKey : bytes) (id : string)
    (caveats : list Caveat.t) : bytes :=
  fold_left chainRule caveats (hmac_sha256 rootKey (bytes_of_string id)).

(** The invariant of the data model: the signature is the chain over
    the caveats, from the keyed hash of the identifier. *)
Definition chained (rootKey : bytes) (m : Macaroon.t) : Prop :=
  Macaroon.sig m
    = chainSignature rootKey (Macaroon.id m) (Macaroon.caveats m).

(** The laws of the primitives that some of the results below depend
    on: decoding undoes encoding, decryption under the same key undoes
    encryption, and unmarshalling undoes marshalling of a given
    payload. *)
Definition base64_inverse : Prop :=
  forall b, base64_DecodeString (base64_EncodeToString b) = Ok b.

Definition cipher_inverse : Prop :=
  forall key text g c g',
    encrypt key text g = (Ok c, g') -> decrypt key c = Ok text.

Definition json_inverse (c : ThirdPartyCaveatId.t) : Prop :=
  forall data, json_Marshal c = Ok data -> json_Unmarshal data = Ok c.

End Chain.

(** The first-party caveat that [AddFirstPartyCaveat] appends, and what it
    is for a checker to accept a first-party caveat. *)
Definition firstParty (caveatId : string) : Caveat.t :=
  {| Caveat.location := ""; Caveat.caveatId := caveatId;
     Caveat.verificationId := [] |}.

Definition accepted (check : string -> bool * option error)
    (cav : Caveat.t) : Prop :=
  Caveat.IsThirdParty cav = false /\
  fst (check (Caveat.caveatId cav)) = true.

(** ** bakery.Discharger *)

Module bakery.

Section Discharger.

(** [Caveat] is the caveat description of the bakery package, [World]
    whatever the three collaborators read and change when called. *)
Variables (Caveat World : Type).

(** The interfaces [CaveatIdDecoder], [ThirdPartyChecker] and
    [NewMacarooner]. *)
Class CaveatIdDecoder (D : Type) : Type :=
  DecodeCaveatId :
    D -> string -> World -> (bytes * string * option error) * World.

Class ThirdPartyChecker (C : Type) : Type :=
  CheckThirdPartyCaveat :
    C -> string -> World -> (list Caveat * option error) * World.

Class NewMacarooner (F : Type) : Type :=
  NewMacaroon :
    F -> string -> bytes -> list Caveat -> World ->
    (option Macaroon.t * option error) * World.

Record Discharger (C D F : Type) : Type := mkDischarger {
  Checker : C;
  Decoder : D;
  Factory : F
}.
Arguments Checker {C D F} d.
Arguments Decoder {C D F} d.
Arguments Factory {C D F} d.

Context {C D F : Type}.
Context `{!ThirdPartyChecker C, !CaveatIdDecoder D, !NewMacarooner F}.

(** [Discharge]; the call to [logf] is left out. *)
Definition Discharge (d : Discharger C D F) (id : string) (w : World)
    : (option Macaroon.t * option error) * World :=
  let '((rootKey, condition, err), w) := DecodeCaveatId (Decoder d) id w in
  match err with
  | Some err => ((None, Some (ErrCannotDecodeCaveatId err)), w)
  | None =>
      let '((caveats, err), w) :=
        CheckThirdPartyCaveat (Checker d) condition w in
      match err with
      | Some err => ((None, Some err), w)
      | None => NewMacaroon (Factory d) id rootKey caveats w
      end
  end.

End Discharger.

Arguments Checker {C D F} d.
Arguments Decoder {C D F} d.
Arguments Factory {C D F} d.
Arguments mkDischarger {C D F} Checker Decoder Factory.
Arguments DecodeCaveatId {World D _} d id w.
Arguments CheckThirdPartyCaveat {Caveat World C _} c condition w.
Arguments NewMacaroon {Caveat World F _} f id rootKey caveats w.
Arguments Discharge {Caveat World C D F _ _ _} d id w.

End bakery.

(** ** What verification looks at *)

(** A caveat the loop of [verify] can get past: a first-party caveat has
    to be accepted by the checker, a third-party caveat needs an entry in
    the discharge map. *)
Definition passable (check : string -> bool * option error)
    (discharges : gmap string Macaroon.t) (cav : Caveat.t) : Prop :=
  if Caveat.IsThirdParty cav
  then is_Some (discharges !! Caveat.caveatId cav)
  else fst (check (Caveat.caveatId cav)) = true.

(** A caveat and a macaroon with their location hints blanked. *)
Definition forgetCaveatLocation (cav : Caveat.t) : Caveat.t :=
  {| Caveat.location := "";
     Caveat.caveatId := Caveat.caveatId cav;
     Caveat.verificationId := Caveat.verificationId cav |}.

Definition forgetLocations (m : Macaroon.t) : Macaroon.t :=
  {| Macaroon.location := "";
     Macaroon.id := Macaroon.id m;
     Macaroon.caveats := map forgetCaveatLocation (Macaroon.caveats m);
     Macaroon.sig := Macaroon.sig m |}.

(** ** JSON

    [MarshalJSON] and [UnmarshalJSON] of caveats and macaroons hand their
    documents to [encoding/json].  The codec is taken as an interface, at
    the two document types. *)
Class DocCodec : Type := {
  json_Marshal_CaveatDoc : Caveat.Doc -> result bytes;
  json_Unmarshal_CaveatDoc : bytes -> result Caveat.Doc;
  json_Marshal_MacaroonDoc : Macaroon.Doc -> result bytes;
  json_Unmarshal_MacaroonDoc : bytes -> result Macaroon.Doc
}.

(** The errors of the JSON methods: the codec's error wrapped by
    [MarshalJSON], the codec's error wrapped by [UnmarshalJSON], and the
    error of [UnmarshalDoc], which [UnmarshalJSON] returns as it is. *)
Inductive jsonError : Type :=
| CannotMarshalJSON (e : error)
| CannotUnmarshalJSON (e : error)
| DocumentError (e : error).

Definition zeroMacaroon : Macaroon.t :=
  {| Macaroon.location := ""; Macaroon.id := "";
     Macaroon.caveats := []; Macaroon.sig := [] |}.

Module CaveatJSON.

Section Methods.

Context `{J : DocCodec}.

Definition MarshalJSON (cav : Caveat.t) : bytes + jsonError :=
  match json_Marshal_CaveatDoc (Caveat.MarshalDoc cav) with
  | Err err => inr (CannotMarshalJSON err)
  | Ok data => inl data
  end.

(** When the text does not parse the receiver is left alone. *)
Definition UnmarshalJSON (cav : Caveat.t) (jsonData : bytes)
    : Caveat.t * option jsonError :=
  match json_Unmarshal_CaveatDoc jsonData with
  | Err err => (cav, Some (CannotUnmarshalJSON err))
  | Ok doc =>
      let '(cav, err) := Caveat.UnmarshalDoc cav doc in
      (cav, DocumentError <$> err)
  end.

(** The codec gives a caveat document back. *)
Definition doc_inverse (doc : Caveat.Doc) : Prop :=
  forall data,
    json_Marshal_CaveatDoc doc = Ok data ->
    json_Unmarshal_CaveatDoc data = Ok doc.

End Methods.

End CaveatJSON.

Section MacaroonJSON.

Context `{J : DocCodec}.

Definition MarshalJSON (m : Macaroon.t) : bytes + jsonError :=
  match json_Marshal_MacaroonDoc (MarshalDoc m) with
  | Err err => inr (CannotMarshalJSON err)
  | Ok data => inl data
  end.

Definition UnmarshalJSON (m : Macaroon.t) (jsonData : bytes)
    : Macaroon.t * option jsonError :=
  match json_Unmarshal_MacaroonDoc jsonData with
  | Err err => (m, Some (CannotUnmarshalJSON err))
  | Ok mjson =>
      let '(m, err) := UnmarshalDoc m mjson in
      (m, DocumentError <$> err)
  end.

(** The codec gives a document back. *)
Definition doc_inverse (doc : Macaroon.Doc) : Prop :=
  forall data,
    json_Marshal_MacaroonDoc doc = Ok data ->
    json_Unmarshal_MacaroonDoc data = Ok doc.

End MacaroonJSON.

(** ** The httpbakery package *)

Module httpbakery.

(** [http.Header]: the values of each field; [None] is the nil map. *)
Abbreviation Header := (gmap string (list string)).

(** Of a [*http.Request] only the header is looked at, and of a
    [*http.Cookie] only the name and the value.  Requests in [via] are
    taken to be non-nil. *)
Record Request : Type := mkRequest {
  RequestHeader : option Header
}.

Record Cookie : Type := mkCookie {
  Name : string;
  Value : string
}.

(** What a call of [CheckRedirect] comes to: it returns, with an error or
    none and the request as it then is, or it panics (an assignment to an
    entry of a nil map). *)
Inductive checked : Type :=
| Returns (err : option error) (req : Request)
| Panics.

(** The loop over the header of the first request, the fields taken in
    the order of [fields]: a field the new request does not have is given
    the values it had in the first request.  [None] is a panic. *)
Fixpoint copyMissing (fields : list (string * list string))
    (header : option Header) : option (option Header) :=
  match fields with
  | [] => Some header
  | (attr, val) :: rest =>
      match header ≫= (.!! attr) with
      | Some _ => copyMissing rest header
      | None =>
          match header with
          | None => None
          | Some h => copyMissing rest (Some (<[attr := val]> h))
          end
      end
  end.

(** The fields of a header in the order a [range] statement visits
    them.  Go leaves the order open; this is one order, and
    [copyMissing] is shown below not to depend on it. *)
Definition rangeOver (header : option Header)
    : list (string * list string) :=
  match header with
  | None => []
  | Some h => map_to_list h
  end.

(** The [CheckRedirect] function of [defaultHTTPClient]. *)
Definition CheckRedirect (req : Request) (via : list Request) : checked :=
  if (10 <=? length via)%nat then
    Returns (Some (ErrOther "too many redirects")) req
  else
    match via with
    | [] => Returns None req
    | first :: _ =>
        match copyMissing (rangeOver (RequestHeader first))
                (RequestHeader req) with
        | None => Panics
        | Some header => Returns None {| RequestHeader := header |}
        end
    end.

Section NewRequest.

Context `{P : Primitives} `{J : DocCodec}.

(** [bakery.FirstPartyChecker], [bakery.Request], and the two methods of
    the bakery package that [NewRequest] calls: [Service.NewRequest], which
    makes the request for a checker, and [Request.AddClientMacaroon]. *)
Variables FirstPartyChecker BakeryRequest : Type.
Variable Service_NewRequest : FirstPartyChecker -> BakeryRequest.
Variable AddClientMacaroon : BakeryRequest -> Macaroon.t -> BakeryRequest.

(** One turn of the loop over the cookies; the three [continue]s leave
    the request as it is (what they log is left out). *)
Definition addCookie (req : BakeryRequest) (cookie : Cookie)
    : BakeryRequest :=
  if negb (String.prefix "macaroon-" (Name cookie)) then req
  else
    match base64_DecodeString (Value cookie) with
    | Err err => req
    | Ok data =>
        let '(m, err) := UnmarshalJSON zeroMacaroon data in
        match err with
        | Some err => req
        | None => AddClientMacaroon req m
        end
    end.

(** [Service.NewRequest] of the httpbakery package, given the cookies of
    the HTTP request. *)
Definition NewRequest (cookies : list Cookie) (checker : FirstPartyChecker)
    : BakeryRequest :=
  let req := Service_NewRequest checker in
  fold_left addCookie cookies req.

(** The cookie that carries a macaroon: its JSON text, base64-encoded,
    under a name that starts with [macaroon-]. *)
Definition cookieOf (name : string) (data : bytes) : Cookie :=
  {| Name := "macaroon-" +:+ name; Value := base64_EncodeToString data |}.

End NewRequest.

End httpbakery.

(** ** A small instance of the primitives

    Stand-ins on which the definitions above can be run: the keyed hash
    joins key and message, the cipher prefixes the text with a mark and the
    key, base64 is the identity on characters, and the payload is
    marshalled as the length of the root key followed by the root key and
    the condition.  They obey the three laws below and have none of the
    strength of the real ones; the general results do not mention them,
    they only serve to run the definitions. *)
Module Sample.

Definition hmac (key msg : bytes) : bytes := key ++ x3a :: msg.

Definition sha (msg : bytes) : bytes := x23 :: msg.

Definition nonce (g : nat) : result bytes * nat :=
  (Ok (replicate 24 (hex.byte_of_N (N.of_nat g))), S g).

Definition seal (key text : bytes) (g : nat) : result bytes * nat :=
  (Ok (x2a :: key ++ text), S g).

Definition open (key c : bytes) : result bytes :=
  match c with
  | [] => Err (ErrOther "empty ciphertext")
  | _ :: rest =>
      if bool_decide (take (length key) rest = key)
      then Ok (drop (length key) rest)
      else Err (ErrOther "wrong key")
  end.

Definition marshal (c : ThirdPartyCaveatId.t) : result bytes :=
  Ok (hex.byte_of_N (N.of_nat (length (ThirdPartyCaveatId.RootKey c)))
        :: ThirdPartyCaveatId.RootKey c
        ++ bytes_of_string (ThirdPartyCaveatId.Caveat c)).

Definition unmarshal (data : bytes) : result ThirdPartyCaveatId.t :=
  match data with
  | [] => Err (ErrOther "unexpected end of input")
  | n :: rest =>
      let k := N.to_nat (Byte.to_N n) in
      Ok {| ThirdPartyCaveatId.RootKey := take k rest;
            ThirdPartyCaveatId.Caveat := string_of_bytes (drop k rest) |}
  end.

#[export] Instance primitives : Primitives := {|
  entropy := nat;
  hmac_sha256 := hmac;
  sha256_digest := sha;
  newNonce := nonce;
  encrypt := seal;
  decrypt := open;
  base64_EncodeToString := string_of_bytes;
  base64_DecodeString := fun s => Ok (bytes_of_string s);
  json_Marshal := marshal;
  json_Unmarshal := unmarshal
|}.

(** A checker that accepts everything, one that accepts everything and
    reports an error all the same, and one that rejects everything with
    an error. *)
Definition accept (_ : string) : bool * option error := (true, None).
Definition acceptWithError (_ : string) : bool * option error :=
  (true, Some (ErrOther "clock unavailable")).
Definition rejectWithError (_ : string) : bool * option error :=
  (false, Some (ErrOther "clock unavailable")).

(** A macaroon for an account, with a first-party caveat, and then with
    a third-party caveat as well; the discharge macaroon for the
    latter, bound to the macaroon it goes with. *)
Definition secret : bytes := bytes_of_string "secret".
Definition wrong : bytes := bytes_of_string "wrong".
Definition condition : string := "time < 2030-01-01".

Definition account : Macaroon.t := New secret "account-1" "svc".
Definition timed : Macaroon.t := AddFirstPartyCaveat account condition.

Definition thirdPartySecret : bytes := bytes_of_string "shared with auth".
Definition guardKey : bytes := replicate 24 x00.
Definition guardId : string :=
  match AddThirdPartyCaveat timed thirdPartySecret "is-member" "auth" 0%nat with
  | (Ok id, _, _) => id
  | (Err _, _, _) => ""
  end.
Definition guarded : Macaroon.t :=
  snd (fst (AddThirdPartyCaveat timed thirdPartySecret "is-member" "auth"
              0%nat)).
Definition guard : Caveat.t :=
  {| Caveat.location := "auth"; Caveat.caveatId := guardId;
     Caveat.verificationId := x2a :: Macaroon.sig timed ++ guardKey |}.
Definition guardDischarge : Macaroon.t :=
  Bind (fold_left AddFirstPartyCaveat [condition]
          (New guardKey guardId "auth"))
    (Macaroon.sig guarded).

(** A document whose signature is not hexadecimal text. *)
Definition badDoc : Macaroon.Doc :=
  {| Macaroon.Caveats := []; Macaroon.Location := "elsewhere";
     Macaroon.Identifier := "account-2"; Macaroon.Signature := "0g" |}.

(** Collaborators of a discharger.  The world is the list of the calls
    made so far, the latest last.  The decoder is a table of the caveat
    ids it knows, the checker the list of the conditions it holds true,
    and the factory the location it mints for. *)
Inductive call : Type :=
| Decoded (id : string)
| Checked (condition : string)
| Minted (id : string) (rootKey : bytes).

#[export] Instance decoder
    : bakery.CaveatIdDecoder (list call) (gmap string (bytes * string)) :=
  fun table id w =>
    match table !! id with
    | Some (rootKey, condition) =>
        ((rootKey, condition, None), w ++ [Decoded id])
    | None =>
        (([], "", Some (ErrOther "unknown caveat id")), w ++ [Decoded id])
    end.

#[export] Instance checker
    : bakery.ThirdPartyChecker Caveat.t (list call) (list string) :=
  fun known condition w =>
    if bool_decide (condition ∈ known)
    then (([], None), w ++ [Checked condition])
    else (([], Some (ErrOther "condition does not hold")),
          w ++ [Checked condition]).

#[export] Instance factory
    : bakery.NewMacarooner Caveat.t (list call) string :=
  fun loc id rootKey _ w =>
    ((Some (New rootKey id loc), None), w ++ [Minted id rootKey]).

Definition discharger (known : list string)
    : bakery.Discharger (list string) (gmap string (bytes * string)) string :=
  bakery.mkDischarger known {[ "id-1" := (guardKey, "is-member") ]} "auth".

End Sample.

(** ** More sample data

    A codec that writes a document as lines of text, one field per line,
    the caveats of a macaroon after its own three fields; a bakery request
    that is the list of the macaroons added to it; headers; and macaroons
    for the results on discharges. *)
Module Trial.

Import Sample.

Fixpoint lines (b : bytes) : list bytes :=
  match b with
  | [] => [[]]
  | c :: rest =>
      if bool_decide (c = x0a) then [] :: lines rest
      else
        match lines rest with
        | l :: ls => (c :: l) :: ls
        | [] => [[c]]
        end
  end.

Fixpoint joinLines (ls : list bytes) : bytes :=
  match ls with
  | [] => []
  | [l] => l
  | l :: ls => l ++ x0a :: joinLines ls
  end.

Definition caveatLines (cav : Caveat.t) : list bytes :=
  let doc := Caveat.MarshalDoc cav in
  [bytes_of_string (Caveat.Location doc); bytes_of_string (Caveat.CID doc);
   bytes_of_string (Caveat.VID doc)].

Definition caveatDocOfLines (loc cid vid : bytes) : Caveat.Doc :=
  {| Caveat.Location := string_of_bytes loc;
     Caveat.CID := string_of_bytes cid;
     Caveat.VID := string_of_bytes vid |}.

Fixpoint caveatsOfLines (ls : list bytes) : result (list Caveat.t) :=
  match ls with
  | [] => Ok []
  | loc :: cid :: vid :: rest =>
      match Caveat.UnmarshalDoc zeroCaveat (caveatDocOfLines loc cid vid) with
      | (_, Some err) => Err err
      | (cav, None) =>
          match caveatsOfLines rest with
          | Err err => Err err
          | Ok caveats => Ok (cav :: caveats)
          end
      end
  | _ => Err (ErrOther "unexpected end of input")
  end.

#[export] Instance codec : DocCodec := {|
  json_Marshal_CaveatDoc := fun doc =>
    Ok (joinLines [bytes_of_string (Caveat.Location doc);
                   bytes_of_string (Caveat.CID doc);
                   bytes_of_string (Caveat.VID doc)]);
  json_Unmarshal_CaveatDoc := fun data =>
    match lines data with
    | [loc; cid; vid] => Ok (caveatDocOfLines loc cid vid)
    | _ => Err (ErrOther "unexpected end of input")
    end;
  json_Marshal_MacaroonDoc := fun doc =>
    Ok (joinLines
          (bytes_of_string (Macaroon.Location doc)
             :: bytes_of_string (Macaroon.Identifier doc)
             :: bytes_of_string (Macaroon.Signature doc)
             :: concat (map caveatLines (Macaroon.Caveats doc))));
  json_Unmarshal_MacaroonDoc := fun data =>
    match lines data with
    | loc :: id :: sig :: rest =>
        match caveatsOfLines rest with
        | Err err => Err err
        | Ok caveats =>
            Ok {| Macaroon.Caveats := caveats;
                  Macaroon.Location := string_of_bytes loc;
                  Macaroon.Identifier := string_of_bytes id;
                  Macaroon.Signature := string_of_bytes sig |}
        end
    | _ => Err (ErrOther "unexpected end of input")
    end
|}.

(** The JSON text of the sample macaroons. *)
Definition textOf (m : Macaroon.t) : bytes :=
  match MarshalJSON m with
  | inl data => data
  | inr _ => []
  end.

(** The bakery request as the list of its client macaroons. *)
Definition newRequest (_ : unit) : list Macaroon.t := [].
Definition addClientMacaroon (req : list Macaroon.t) (m : Macaroon.t)
    : list Macaroon.t :=
  req ++ [m].

(** Headers of a first request and of the request that follows a
    redirect. *)
Definition firstHeader : httpbakery.Header :=
  {[ "Authorization" := ["Bearer abc"]; "Accept" := ["text/html"] ]}.
Definition nextHeader : httpbakery.Header :=
  {[ "Accept" := ["*/*"]; "Referer" := ["http://svc/"] ]}.

(** The discharge macaroon for the guard, not bound; and a macaroon whose
    only caveat is discharged by itself, under the key [guardKey]. *)
Definition guardUnbound : Macaroon.t :=
  fold_left AddFirstPartyCaveat [condition] (New guardKey guardId "auth").

Definition selfDischarge : Macaroon.t :=
  {| Macaroon.location := "auth"; Macaroon.id := "again";
     Macaroon.caveats :=
       [ {| Caveat.location := "auth"; Caveat.caveatId := "again";
            Caveat.verificationId :=
              x2a :: keyedHash guardKey "again" ++ guardKey |} ];
     Macaroon.sig := [] |}.

(** A third-party caveat whose verification id was made under another
    signature. *)
Definition other : Macaroon.t := New wrong "account-1" "svc".
Definition misplaced : Macaroon.t :=
  addCaveat other guardId (Caveat.verificationId guard) "auth".

End Trial.

(** ** Edge cases

    Two inputs at the edges of what the package accepts: a macaroon whose
    stored signature is empty, as [UnmarshalDoc] gives for a document with
    an empty signature, with a third-party caveat and its discharge
    macaroon; and a JSON codec that, like [encoding/json], writes text as
    Unicode. *)
Module Edge.

Import Sample.

(** A third-party caveat made under the signature of the account
    macaroon, for the key [guardKey]. *)
Definition gate : Caveat.t :=
  {| Caveat.location := "auth"; Caveat.caveatId := "gate";
     Caveat.verificationId := x2a :: Macaroon.sig account ++ guardKey |}.

(** The account macaroon with that caveat and no signature. *)
Definition unsigned : Macaroon.t :=
  {| Macaroon.location := "svc"; Macaroon.id := "account-1";
     Macaroon.caveats := [gate]; Macaroon.sig := [] |}.

(** The discharge macaroon for the caveat, made from the recovered key
    and the caveat id and bound to the signature of [unsigned]. *)
Definition gateDischarge : Macaroon.t :=
  Bind (New guardKey "gate" "auth") (Macaroon.sig unsigned).

(** What [encoding/json] makes of the bytes of a Go string on the way to
    JSON text and back: it reads them as UTF-8, one rune at a time, and
    every byte that does not start a well-formed encoding comes back as
    U+FFFD (the bytes EF BF BD).  The well-formed encodings are those of
    [unicode/utf8]: no overlong forms, no surrogates, nothing above
    U+10FFFF. *)
Definition between (lo n hi : N) : bool := ((lo <=? n) && (n <=? hi))%N.

Definition continuation (b : byte) : bool := between 128 (Byte.to_N b) 191.

Definition replacement : bytes := [xef; xbf; xbd].

Fixpoint toValidUTF8 (s : bytes) : bytes :=
  match s with
  | [] => []
  | b0 :: rest =>
      let n0 := Byte.to_N b0 in
      if (n0 <? 128)%N then b0 :: toValidUTF8 rest
      else
        match rest with
        | [] => replacement
        | b1 :: rest1 =>
            let n1 := Byte.to_N b1 in
            if between 194 n0 223 then
              if continuation b1 then b0 :: b1 :: toValidUTF8 rest1
              else replacement ++ toValidUTF8 rest
            else
              match rest1 with
              | [] => replacement ++ toValidUTF8 rest
              | b2 :: rest2 =>
                  if between 224 n0 239 then
                    if (if (n0 =? 224)%N then between 160 n1 191
                        else if (n0 =? 237)%N then between 128 n1 159
                        else between 128 n1 191)
                       && continuation b2
                    then b0 :: b1 :: b2 :: toValidUTF8 rest2
                    else replacement ++ toValidUTF8 rest
                  else
                    match rest2 with
                    | [] => replacement ++ toValidUTF8 rest
                    | b3 :: rest3 =>
                        if between 240 n0 244
                           && (if (n0 =? 240)%N then between 144 n1 191
                               else if (n0 =? 244)%N then between 128 n1 143
                               else between 128 n1 191)
                           && continuation b2 && continuation b3
                        then b0 :: b1 :: b2 :: b3 :: toValidUTF8 rest3
                        else replacement ++ toValidUTF8 rest
                    end
              end
        end
  end.

(** The sample primitives with such a codec: the condition is written as
    Unicode text, the framing is that of the sample. *)
Definition marshalText (c : ThirdPartyCaveatId.t) : result bytes :=
  marshal
    {| ThirdPartyCaveatId.RootKey := ThirdPartyCaveatId.RootKey c;
       ThirdPartyCaveatId.Caveat :=
         string_of_bytes
           (toValidUTF8 (bytes_of_string (ThirdPartyCaveatId.Caveat c))) |}.

Definition textPrimitives : Primitives := {|
  entropy := nat;
  hmac_sha256 := hmac;
  sha256_digest := sha;
  newNonce := nonce;
  encrypt := seal;
  decrypt := open;
  base64_EncodeToString := string_of_bytes;
  base64_DecodeString := fun s => Ok (bytes_of_string s);
  json_Marshal := marshalText;
  json_Unmarshal := unmarshal
|}.

(** A condition that is not UTF-8, the single byte FF, and the caveat id
    that [AddThirdPartyCaveat] returns for it. *)
Definition rawCondition : string := string_of_bytes [xff].

Definition rawId : string :=
  match AddThirdPartyCaveat (P := textPrimitives) timed thirdPartySecret
          rawCondition "auth" 0%nat with
  | (Ok id, _, _) => id
  | (Err _, _, _) => ""
  end.

End Edge.

(** Induction on strings two characters at a time, the way
    [hex.DecodeString] reads them. *)
Fixpoint string_pair_rect (Q : string -> Type)
    (H0 : Q EmptyString) (H1 : forall c, Q (String c EmptyString))
    (H2 : forall p q rest, Q rest -> Q (String p (String q rest)))
    (s : string) : Q s :=
  match s with
  | EmptyString => H0
  | String p EmptyString => H1 p
  | String p (String q rest) =>
      H2 p q rest (string_pair_rect Q H0 H1 H2 rest)
  end.

(** * Results *)

(** ** Hexadecimal text *)

Lemma hex_digits_of_byte (v : byte) :
  let hi := N.shiftr (Byte.to_N v) 4 in
  let lo := N.land (Byte.to_N v) 15 in
  hex.fromHexChar (hex.hexdigit hi) = Some hi /\
  hex.fromHexChar (hex.hexdigit lo) = Some lo /\
  hex.byte_of_N (N.lor (N.shiftl hi 4) lo) = v.
Proof. destruct v; vm_compute; auto. Qed.

Lemma hex_decode_encode (b : bytes) :
  hex.DecodeString (hex.EncodeToString b) = (b, None).
Proof.
  induction b as [|v b IH]; [reflexivity|].
  destruct (hex_digits_of_byte v) as (Hhi & Hlo & Hv).
  cbn [hex.EncodeToString hex.DecodeString].
  rewrite Hhi, Hlo, IH, Hv. reflexivity.
Qed.

(** The decoder reports an error exactly on the texts that are not
    well formed. *)
Lemma hex_decode_error_iff (s : string) :
  snd (hex.DecodeString s) = None <-> hex.well_formed s = true.
Proof.
  unfold hex.well_formed.
  induction s as [|c|p q rest IH] using string_pair_rect.
  - cbn. tauto.
  - cbn. unfold hex.is_digit.
    destruct (hex.fromHexChar c); cbn; split; discriminate.
  - cbn [hex.DecodeString hex.all_digits String.length Nat.even].
    unfold hex.is_digit.
    destruct (hex.fromHexChar p); cbn [snd andb];
      [|rewrite andb_false_r; split; discriminate].
    destruct (hex.fromHexChar q); cbn [snd andb];
      [|rewrite andb_false_r; split; discriminate].
    destruct (hex.DecodeString rest) as [dst err]. exact IH.
Qed.

(** ** The signature chain *)

Section ChainResults.

Context `{P : Primitives}.

Lemma addCaveat_chain m caveatId verificationId loc :
  let cav := {| Caveat.location := loc; Caveat.caveatId := caveatId;
                Caveat.verificationId := verificationId |} in
  Macaroon.caveats (addCaveat m caveatId verificationId loc)
    = Macaroon.caveats m ++ [cav] /\
  Macaroon.sig (addCaveat m caveatId verificationId loc)
    = chainRule (Macaroon.sig m) cav /\
  Macaroon.id (addCaveat m caveatId verificationId loc) = Macaroon.id m /\
  Macaroon.location (addCaveat m caveatId verificationId loc)
    = Macaroon.location m.
Proof. repeat split. Qed.

(** What [AddThirdPartyCaveat] leaves behind: on success one more caveat,
    chained by the rule; on failure the macaroon it was given. *)
Lemma AddThirdPartyCaveat_chain m secret caveat loc g :
  match AddThirdPartyCaveat m secret caveat loc g with
  | (Ok id, m', _) =>
      exists vid,
        let cav := {| Caveat.location := loc; Caveat.caveatId := id;
                      Caveat.verificationId := vid |} in
        Macaroon.caveats m' = Macaroon.caveats m ++ [cav] /\
        Macaroon.sig m' = chainRule (Macaroon.sig m) cav /\
        Macaroon.id m' = Macaroon.id m
  | (Err _, m', _) => m' = m
  end.
Proof.
  unfold AddThirdPartyCaveat.
  destruct (newNonce g) as [[nonce|e] g1]; [|reflexivity].
  destruct (json_Marshal _) as [data|e]; [|reflexivity].
  destruct (encrypt secret data g1) as [[cid|e] g2]; [|reflexivity].
  destruct (encrypt (Macaroon.sig m) nonce g2) as [[vid|e] g3];
    [|reflexivity].
  exists vid. repeat split.
Qed.

Lemma New_chained rootKey id loc : chained rootKey (New rootKey id loc).
Proof. reflexivity. Qed.

Lemma chained_snoc rootKey m m' cav :
  chained rootKey m ->
  Macaroon.caveats m' = Macaroon.caveats m ++ [cav] ->
  Macaroon.sig m' = chainRule (Macaroon.sig m) cav ->
  Macaroon.id m' = Macaroon.id m ->
  chained rootKey m'.
Proof.
  unfold chained, chainSignature. intros Hm Hc Hs Hi.
  rewrite Hc, Hs, Hi, fold_left_app, Hm. reflexivity.
Qed.

Lemma add_chained rootKey m g a :
  chained rootKey m -> chained rootKey (fst (add (m, g) a)).
Proof.
  intros Hm. destruct a as [caveatId|secret caveat loc]; cbn [add].
  - cbn [fst]. eapply chained_snoc; [exact Hm|reflexivity..].
  - pose proof (AddThirdPartyCaveat_chain m secret caveat loc g) as H.
    destruct (AddThirdPartyCaveat m secret caveat loc g)
      as [[[id|e] m'] g']; cbn [fst].
    + destruct H as (vid & Hc & Hs & Hi).
      eapply chained_snoc; eauto.
    + subst m'. exact Hm.
Qed.

Lemma add_id m g a : Macaroon.id (fst (add (m, g) a)) = Macaroon.id m.
Proof.
  destruct a as [caveatId|secret caveat loc]; cbn [add]; [reflexivity|].
  pose proof (AddThirdPartyCaveat_chain m secret caveat loc g) as H.
  destruct (AddThirdPartyCaveat m secret caveat loc g)
    as [[[id|e] m'] g']; cbn [fst].
  - destruct H as (vid & _ & _ & Hi). exact Hi.
  - subst m'. reflexivity.
Qed.

Lemma addAll_chained rootKey l : forall m g,
  chained rootKey m ->
  chained rootKey (fst (addAll m g l)) /\
  Macaroon.id (fst (addAll m g l)) = Macaroon.id m.
Proof.
  unfold addAll.
  induction l as [|a l IH]; intros m g Hm; [split; [exact Hm|reflexivity]|].
  cbn [fold_left].
  pose proof (add_chained rootKey m g a Hm) as Ha.
  pose proof (add_id m g a) as Hi.
  destruct (add (m, g) a) as [m1 g1]. cbn [fst] in Ha, Hi.
  destruct (IH m1 g1 Ha) as [H1 H2]. split; [exact H1|congruence].
Qed.

(** When the nonce, the marshalling and the two encryptions succeed, so
    does [AddThirdPartyCaveat], and it appends the caveat made of the
    location, the encoded caveat id and the verification id. *)
Lemma AddThirdPartyCaveat_succeeds m secret caveat loc g
    nonce g1 data cid g2 vid g3 :
  newNonce g = (Ok nonce, g1) ->
  json_Marshal {| ThirdPartyCaveatId.RootKey := nonce;
                  ThirdPartyCaveatId.Caveat := caveat |} = Ok data ->
  encrypt secret data g1 = (Ok cid, g2) ->
  encrypt (Macaroon.sig m) nonce g2 = (Ok vid, g3) ->
  AddThirdPartyCaveat m secret caveat loc g
  = (Ok (base64_EncodeToString cid),
     addCaveat m (base64_EncodeToString cid) vid loc, g3).
Proof.
  intros Hnonce Hdata Hcid Hvid. unfold AddThirdPartyCaveat.
  rewrite Hnonce, Hdata, Hcid, Hvid. reflexivity.
Qed.

Lemma AddFirstPartyCaveat_sequence conds : forall m,
  let m' := fold_left AddFirstPartyCaveat conds m in
  Macaroon.caveats m' = Macaroon.caveats m ++ map firstParty conds /\
  Macaroon.sig m'
    = fold_left chainRule (map firstParty conds) (Macaroon.sig m).
Proof.
  induction conds as [|c conds IH]; intros m; cbn.
  - rewrite app_nil_r. auto.
  - destruct (IH (AddFirstPartyCaveat m c)) as (Hc & Hs).
    rewrite Hc, Hs. cbn. rewrite <- app_assoc. auto.
Qed.

(** C1.  Each caveat addition, first- or third-party, appends one caveat
    and replaces the signature by the keyed hash, under the previous
    signature, of the caveat's verification id followed by its caveat
    id; the verification id of a first-party caveat is empty.  A
    third-party addition does so whenever the nonce, the marshalling and
    the two encryptions succeed, with the encoded caveat id and the
    encrypted nonce as the caveat's ids, and leaves the macaroon alone
    otherwise.  Hence after any sequence of additions to a newly made
    macaroon the signature is the fold of that rule over the caveats,
    starting from the keyed hash of the identifier under the root key;
    after first-party additions the caveats are exactly the conditions
    added, in order. *)
Theorem signature_chaining_rule :
  (forall m caveatId,
     let cav := {| Caveat.location := ""; Caveat.caveatId := caveatId;
                   Caveat.verificationId := [] |} in
     Macaroon.caveats (AddFirstPartyCaveat m caveatId)
       = Macaroon.caveats m ++ [cav] /\
     Macaroon.sig (AddFirstPartyCaveat m caveatId)
       = hmac_sha256 (Macaroon.sig m) ([] ++ bytes_of_string caveatId)) /\
  (forall m secret caveat loc g,
     match AddThirdPartyCaveat m secret caveat loc g with
     | (Ok id, m', _) =>
         exists vid,
           Macaroon.caveats m'
             = Macaroon.caveats m ++
               [ {| Caveat.location := loc; Caveat.caveatId := id;
                    Caveat.verificationId := vid |} ] /\
           Macaroon.sig m'
             = hmac_sha256 (Macaroon.sig m) (vid ++ bytes_of_string id)
     | (Err _, m', _) => m' = m
     end) /\
  (forall rootKey id loc g l,
     let m := fst (addAll (New rootKey id loc) g l) in
     Macaroon.sig m
       = fold_left
           (fun signature cav =>
              hmac_sha256 signature
                (Caveat.verificationId cav
                   ++ bytes_of_string (Caveat.caveatId cav)))
           (Macaroon.caveats m)
           (keyedHash rootKey id)) /\
  (forall m secret caveat loc g nonce g1 data cid g2 vid g3,
     newNonce g = (Ok nonce, g1) ->
     json_Marshal {| ThirdPartyCaveatId.RootKey := nonce;
                     ThirdPartyCaveatId.Caveat := caveat |} = Ok data ->
     encrypt secret data g1 = (Ok cid, g2) ->
     encrypt (Macaroon.sig m) nonce g2 = (Ok vid, g3) ->
     let id := base64_EncodeToString cid in
     AddThirdPartyCaveat m secret caveat loc g
     = (Ok id,
        {| Macaroon.location := Macaroon.location m;
           Macaroon.id := Macaroon.id m;
           Macaroon.caveats :=
             Macaroon.caveats m ++
             [ {| Caveat.location := loc; Caveat.caveatId := id;
                  Caveat.verificationId := vid |} ];
           Macaroon.sig :=
             hmac_sha256 (Macaroon.sig m) (vid ++ bytes_of_string id) |},
        g3)) /\
  (forall rootKey id loc conds,
     let m := fold_left AddFirstPartyCaveat conds (New rootKey id loc) in
     Macaroon.caveats m = map firstParty conds /\
     Macaroon.sig m
       = fold_left
           (fun signature cav =>
              hmac_sha256 signature
                (Caveat.verificationId cav
                   ++ bytes_of_string (Caveat.caveatId cav)))
           (map firstParty conds)
           (keyedHash rootKey id)).
Proof.
  split; [|split; [|split; [|split]]].
  - intros m caveatId. split; reflexivity.
  - intros m secret caveat loc g.
    pose proof (AddThirdPartyCaveat_chain m secret caveat loc g) as H.
    destruct (AddThirdPartyCaveat m secret caveat loc g)
      as [[[id|e] m'] g']; [|exact H].
    destruct H as (vid & Hc & Hs & _). exists vid. split; assumption.
  - intros rootKey id loc g l m.
    destruct (addAll_chained rootKey l (New rootKey id loc) g
                (New_chained rootKey id loc)) as [H1 H2].
    fold m in H1, H2. unfold chained in H1. rewrite H1, H2. reflexivity.
  - intros m secret caveat loc g nonce g1 data cid g2 vid g3
      Hnonce Hdata Hcid Hvid id.
    rewrite (AddThirdPartyCaveat_succeeds _ _ _ _ _ _ _ _ _ _ _ _
               Hnonce Hdata Hcid Hvid).
    reflexivity.
  - intros rootKey id loc conds m.
    destruct (AddFirstPartyCaveat_sequence conds (New rootKey id loc))
      as [Hc Hs].
    fold m in Hc, Hs. split; [exact Hc|exact Hs].
Qed.

End ChainResults.

(** ** Binding *)

Section BindResults.

Context `{P : Primitives}.

Lemma bindForRequest_same s : bindForRequest s s = s.
Proof.
  unfold bindForRequest, bytes_Equal.
  rewrite bool_decide_eq_true_2; reflexivity.
Qed.

Lemma bindForRequest_other r s :
  r <> s -> bindForRequest r s = sha256_digest (r ++ s).
Proof.
  intros Hne. unfold bindForRequest, bytes_Equal.
  rewrite bool_decide_eq_false_2 by exact Hne. reflexivity.
Qed.

(** C6.  [bindForRequest r s] is [r] when [r] and [s] are equal and the
    plain hash of [r] followed by [s] otherwise; in particular
    [bindForRequest s s = s]; and [Bind] stores
    [bindForRequest rootSig sig] as the signature, changing nothing
    else. *)
Theorem bindForRequest_cases :
  forall r s : bytes,
    bindForRequest r s
      = (if decide (r = s) then r else sha256_digest (r ++ s)) /\
    bindForRequest s s = s /\
    forall m : Macaroon.t,
      Bind m r
        = {| Macaroon.location := Macaroon.location m;
             Macaroon.id := Macaroon.id m;
             Macaroon.caveats := Macaroon.caveats m;
             Macaroon.sig := bindForRequest r (Macaroon.sig m) |}.
Proof.
  intros r s. split; [|split].
  - destruct (decide (r = s)) as [->|Hne].
    + apply bindForRequest_same.
    + apply bindForRequest_other, Hne.
  - apply bindForRequest_same.
  - reflexivity.
Qed.

End BindResults.

(** ** Documents *)

Section DocumentResults.

Context `{P : Primitives}.

Lemma Caveat_doc_roundtrip (cav0 cav : Caveat.t) :
  Caveat.UnmarshalDoc cav0 (Caveat.MarshalDoc cav) = (cav, None).
Proof.
  unfold Caveat.UnmarshalDoc, Caveat.MarshalDoc. cbn.
  rewrite hex_decode_encode. destruct cav; reflexivity.
Qed.

Lemma caveats_roundtrip (caveats : list Caveat.t) :
  unmarshalCaveats (marshalCaveats caveats) = Ok caveats.
Proof.
  induction caveats as [|cav l IH]; [reflexivity|].
  cbn [marshalCaveats map unmarshalCaveats].
  rewrite Caveat_doc_roundtrip.
  fold (marshalCaveats l). rewrite IH. reflexivity.
Qed.

(** C7.  Unmarshalling the document of a macaroon [m], into any
    receiver, succeeds and gives [m] back: the same location, identifier,
    signature and caveats.  The caveats of the document, taken through
    their own documents one by one, come back the same and in the same
    order, each with its location, caveat id and verification id. *)
Theorem document_roundtrip :
  forall m0 m : Macaroon.t,
    UnmarshalDoc m0 (MarshalDoc m) = (m, None) /\
    unmarshalCaveats (marshalCaveats (Macaroon.Caveats (MarshalDoc m)))
      = Ok (Macaroon.caveats m) /\
    forall cav0 cav : Caveat.t,
      Caveat.UnmarshalDoc cav0 (Caveat.MarshalDoc cav) = (cav, None).
Proof.
  intros m0 m. split; [|split].
  - unfold UnmarshalDoc, MarshalDoc. cbn.
    rewrite hex_decode_encode. destruct m; reflexivity.
  - apply caveats_roundtrip.
  - apply Caveat_doc_roundtrip.
Qed.

(** C10.  When the signature of the document is not well-formed
    hexadecimal text, [UnmarshalDoc] returns an error and leaves the
    receiver half written: its location and identifier are those of the
    document, its signature is whatever the decoder gave back, and its
    caveats are the ones it had before. *)
Theorem UnmarshalDoc_not_atomic :
  forall (m : Macaroon.t) (doc : Macaroon.Doc),
    hex.well_formed (Macaroon.Signature doc) = false ->
    exists (m' : Macaroon.t) (e : error),
      UnmarshalDoc m doc = (m', Some e) /\
      Macaroon.location m' = Macaroon.Location doc /\
      Macaroon.id m' = Macaroon.Identifier doc /\
      Macaroon.caveats m' = Macaroon.caveats m /\
      Macaroon.sig m' = fst (hex.DecodeString (Macaroon.Signature doc)).
Proof.
  intros m doc Hbad. unfold UnmarshalDoc.
  pose proof (hex_decode_error_iff (Macaroon.Signature doc)) as Hiff.
  destruct (hex.DecodeString (Macaroon.Signature doc)) as [sig [e|]].
  - eexists _, _. repeat split.
  - cbn in Hiff. rewrite (proj1 Hiff eq_refl) in Hbad. discriminate.
Qed.

End DocumentResults.

(** ** Verification *)

Section VerifyResults.

Context `{P : Primitives}.

Implicit Types (check : string -> bool * option error).
Implicit Types (discharges : gmap string Macaroon.t).
Implicit Types (m dm : Macaroon.t) (cav : Caveat.t).

Lemma foldCaveat_chainRule s cav : foldCaveat s cav = chainRule s cav.
Proof. reflexivity. Qed.

(** The loop over a sequence of caveats followed by another. *)
Lemma verifyCaveats_app check discharges rec l1 l2 : forall i s,
  verifyCaveats check discharges rec i (l1 ++ l2) s
  = match verifyCaveats check discharges rec i l1 s with
    | Some (Continue s') =>
        verifyCaveats check discharges rec (i + length l1) l2 s'
    | r => r
    end.
Proof.
  induction l1 as [|cav l1 IH]; intros i s.
  - cbn. rewrite Nat.add_0_r. reflexivity.
  - cbn [app verifyCaveats length].
    destruct (verifyCaveat check discharges rec i cav s) as [[s'|ok err]|];
      [|reflexivity..].
    rewrite IH, Nat.add_succ_r. reflexivity.
Qed.

Lemma verifyCaveat_accepted check discharges rec i cav s :
  accepted check cav ->
  verifyCaveat check discharges rec i cav s
  = Some (Continue (foldCaveat s cav)).
Proof.
  intros [Hfp Hok]. unfold verifyCaveat. rewrite Hfp.
  destruct (check (Caveat.caveatId cav)) as [ok err].
  cbn in Hok. subst ok. reflexivity.
Qed.

Lemma verifyCaveats_accepted check discharges rec l : forall i s,
  Forall (accepted check) l ->
  verifyCaveats check discharges rec i l s
  = Some (Continue (fold_left foldCaveat l s)).
Proof.
  induction l as [|cav l IH]; intros i s Hall; [reflexivity|].
  inversion Hall as [|? ? Hcav Hl]; subst.
  cbn [verifyCaveats fold_left].
  rewrite (verifyCaveat_accepted _ _ _ _ _ _ Hcav). apply IH, Hl.
Qed.

Lemma AddFirstPartyCaveats conds : forall m,
  let m' := fold_left AddFirstPartyCaveat conds m in
  Macaroon.caveats m' = Macaroon.caveats m ++ map firstParty conds /\
  Macaroon.sig m'
    = fold_left foldCaveat (map firstParty conds) (Macaroon.sig m) /\
  Macaroon.id m' = Macaroon.id m.
Proof.
  induction conds as [|c conds IH]; intros m; cbn.
  - rewrite app_nil_r. auto.
  - destruct (IH (AddFirstPartyCaveat m c)) as (Hc & Hs & Hi).
    rewrite Hc, Hs, Hi. cbn. rewrite <- app_assoc. auto.
Qed.

Lemma accepted_firstParty check conds :
  Forall (fun c => fst (check c) = true) conds ->
  Forall (accepted check) (map firstParty conds).
Proof.
  intros H. apply Forall_map. eapply Forall_impl; [exact H|].
  intros c Hc. split; [reflexivity|exact Hc].
Qed.

(** A macaroon whose caveats are all accepted first-party caveats and
    whose signature is the chain over them, bound or not, verifies. *)
Lemma verify_accepted fuel m rootSig rootKey check discharges :
  Forall (accepted check) (Macaroon.caveats m) ->
  let rootSig' :=
    if (length rootSig =? 0)%nat then Macaroon.sig m else rootSig in
  Macaroon.sig m
    = bindForRequest rootSig'
        (fold_left foldCaveat (Macaroon.caveats m)
           (keyedHash rootKey (Macaroon.id m))) ->
  verify (S fuel) m rootSig rootKey check discharges = Some (true, None).
Proof.
  intros Hall rootSig' Hsig. cbn [verify]. fold rootSig'.
  rewrite (verifyCaveats_accepted _ _ _ _ _ _ Hall).
  unfold hmac_Equal. rewrite bool_decide_eq_true_2 by (symmetry; exact Hsig).
  reflexivity.
Qed.

(** C3.  A macaroon made by [New] and any number of
    [AddFirstPartyCaveat]s verifies, under the same root key, a checker
    that always answers satisfied and no discharge macaroons, with
    [(true, nil)]; any positive amount of fuel is enough. *)
Theorem Verify_first_party_only :
  forall (rootKey : bytes) (id loc : string) (conds : list string)
         (fuel : nat),
    Verify (S fuel)
      (fold_left AddFirstPartyCaveat conds (New rootKey id loc))
      rootKey (fun _ => (true, None)) ∅
    = Some (true, None).
Proof.
  intros rootKey id loc conds fuel. unfold Verify.
  destruct (AddFirstPartyCaveats conds (New rootKey id loc))
    as (Hc & Hs & Hi).
  apply verify_accepted.
  - rewrite Hc. cbn [New Macaroon.caveats app].
    apply accepted_firstParty, Forall_forall. reflexivity.
  - rewrite Hc, Hi, Hs. cbn [New Macaroon.caveats Macaroon.id Macaroon.sig app].
    rewrite Tauto.if_same, bindForRequest_same. reflexivity.
Qed.

Lemma verify_step fuel m rootSig rootKey check discharges :
  verify (S fuel) m rootSig rootKey check discharges
  = let rootSig :=
      if (length rootSig =? 0)%nat then Macaroon.sig m else rootSig in
    match verifyCaveats check discharges
            (discharge fuel rootSig check discharges)
            0 (Macaroon.caveats m)
            (keyedHash rootKey (Macaroon.id m)) with
    | None => None
    | Some (Return ok err) => Some (ok, err)
    | Some (Continue caveatSig) =>
        if negb (hmac_Equal (bindForRequest rootSig caveatSig)
                   (Macaroon.sig m))
        then Some (false, Some ErrSignatureMismatch)
        else Some (true, None)
    end.
Proof. reflexivity. Qed.

Lemma Verify_top_step fuel m rootKey check discharges :
  Verify (S fuel) m rootKey check discharges
  = match verifyCaveats check discharges
            (discharge fuel (Macaroon.sig m) check discharges)
            0 (Macaroon.caveats m)
            (keyedHash rootKey (Macaroon.id m)) with
    | None => None
    | Some (Return ok err) => Some (ok, err)
    | Some (Continue caveatSig) =>
        if negb (hmac_Equal (bindForRequest (Macaroon.sig m) caveatSig)
                   (Macaroon.sig m))
        then Some (false, Some ErrSignatureMismatch)
        else Some (true, None)
    end.
Proof.
  unfold Verify. rewrite verify_step. cbv zeta.
  rewrite Tauto.if_same. reflexivity.
Qed.

(** When the loop stops at a caveat, [Verify] returns what the loop
    returned there. *)
Lemma Verify_stops fuel m rootKey check discharges pre cav post s ok err :
  Macaroon.caveats m = pre ++ cav :: post ->
  verifyCaveats check discharges
    (discharge fuel (Macaroon.sig m) check discharges)
    0 pre (keyedHash rootKey (Macaroon.id m)) = Some (Continue s) ->
  verifyCaveat check discharges
    (discharge fuel (Macaroon.sig m) check discharges)
    (length pre) cav s = Some (Return ok err) ->
  Verify (S fuel) m rootKey check discharges = Some (ok, err).
Proof.
  intros Hc Hpre Hcav. rewrite Verify_top_step, Hc, verifyCaveats_app, Hpre.
  cbn [verifyCaveats Nat.add]. rewrite Hcav. reflexivity.
Qed.

(** C2.  When the loop of [Verify] gets through all the caveats, none
    of them failing, and the running signature it ends with, bound to
    the macaroon's own signature, is not the stored signature, then
    [Verify] returns false with the signature mismatch error. *)
Theorem Verify_signature_mismatch :
  forall (fuel : nat) m (rootKey : bytes) check discharges
         (caveatSig : bytes),
    verifyCaveats check discharges
      (discharge fuel (Macaroon.sig m) check discharges)
      0 (Macaroon.caveats m) (keyedHash rootKey (Macaroon.id m))
      = Some (Continue caveatSig) ->
    bindForRequest (Macaroon.sig m) caveatSig <> Macaroon.sig m ->
    Verify (S fuel) m rootKey check discharges
      = Some (false, Some ErrSignatureMismatch).
Proof.
  intros fuel m rootKey check discharges caveatSig Hloop Hne.
  rewrite Verify_top_step, Hloop. unfold hmac_Equal.
  rewrite bool_decide_eq_false_2 by exact Hne. reflexivity.
Qed.

(** When the loop reaches a first-party caveat and the checker answers
    false for its condition, [Verify] stops and returns false together
    with whatever error the checker gave, an error or none. *)
Theorem Verify_check_failure :
  forall (fuel : nat) m (rootKey : bytes) check discharges
         (pre post : list Caveat.t) cav (s : bytes) (err : option error),
    Macaroon.caveats m = pre ++ cav :: post ->
    Caveat.IsThirdParty cav = false ->
    verifyCaveats check discharges
      (discharge fuel (Macaroon.sig m) check discharges)
      0 pre (keyedHash rootKey (Macaroon.id m)) = Some (Continue s) ->
    check (Caveat.caveatId cav) = (false, err) ->
    Verify (S fuel) m rootKey check discharges = Some (false, err).
Proof.
  intros fuel m rootKey check discharges pre post cav s err Hc Hfp Hpre Hck.
  eapply Verify_stops; [exact Hc|exact Hpre|].
  unfold verifyCaveat. rewrite Hfp, Hck. reflexivity.
Qed.

(** A discharge macaroon made by [New] under the recovered key and the
    caveat id, given first-party caveats the checker accepts, and bound
    to a non-empty root signature, verifies as a discharge. *)
Lemma discharge_minted_and_bound fuel rootSig check discharges
    cavKey caveatId loc conds :
  rootSig <> [] ->
  Forall (fun c => fst (check c) = true) conds ->
  discharge (S fuel) rootSig check discharges
    (Bind (fold_left AddFirstPartyCaveat conds (New cavKey caveatId loc))
       rootSig)
    cavKey
  = Some (true, None).
Proof.
  intros Hne Hall. unfold discharge.
  destruct (AddFirstPartyCaveats conds (New cavKey caveatId loc))
    as (Hc & Hs & Hi).
  assert (Hlen : (length rootSig =? 0)%nat = false).
  { destruct rootSig; [congruence|reflexivity]. }
  apply verify_accepted; cbn [Bind Macaroon.caveats Macaroon.sig Macaroon.id].
  - rewrite Hc. apply accepted_firstParty, Hall.
  - rewrite Hlen, Hc, Hs, Hi. reflexivity.
Qed.

(** C5, with the stored signature not empty in its second half.  Let the
    loop of [Verify] reach a third-party caveat whose verification id
    decrypts under the running signature.  If the discharge map has no
    entry for its caveat id, [Verify] returns false with the
    discharge-not-found error for that caveat.  If the stored signature of
    the macaroon is not empty and the entry is a macaroon made by [New]
    from the recovered key and the caveat id, with first-party caveats
    that the checker accepts, and bound to the signature of the macaroon
    being verified, the loop passes the caveat and goes on with the
    chained running signature. *)
Theorem Verify_third_party_caveat :
  forall (fuel : nat) m (rootKey : bytes) check discharges
         (pre post : list Caveat.t) cav (s cavKey : bytes),
    Macaroon.caveats m = pre ++ cav :: post ->
    Caveat.IsThirdParty cav = true ->
    verifyCaveats check discharges
      (discharge fuel (Macaroon.sig m) check discharges)
      0 pre (keyedHash rootKey (Macaroon.id m)) = Some (Continue s) ->
    decrypt s (Caveat.verificationId cav) = Ok cavKey ->
    (discharges !! Caveat.caveatId cav = None ->
     Verify (S fuel) m rootKey check discharges
       = Some (false, Some (ErrDischargeNotFound (length pre)))) /\
    (forall (loc : string) (conds : list string),
       discharges !! Caveat.caveatId cav
         = Some (Bind (fold_left AddFirstPartyCaveat conds
                         (New cavKey (Caveat.caveatId cav) loc))
                   (Macaroon.sig m)) ->
       Forall (fun c => fst (check c) = true) conds ->
       Macaroon.sig m <> [] ->
       (0 < fuel)%nat ->
       verifyCaveats check discharges
         (discharge fuel (Macaroon.sig m) check discharges)
         0 (pre ++ [cav]) (keyedHash rootKey (Macaroon.id m))
       = Some (Continue (foldCaveat s cav))).
Proof.
  intros fuel m rootKey check discharges pre post cav s cavKey
    Hc Htp Hpre Hdec.
  split.
  - intros Hnone. eapply Verify_stops; [exact Hc|exact Hpre|].
    unfold verifyCaveat. rewrite Htp, Hdec, Hnone. reflexivity.
  - intros loc conds Hsome Hall Hne Hfuel.
    destruct fuel as [|fuel]; [lia|].
    rewrite verifyCaveats_app, Hpre. cbn [verifyCaveats].
    unfold verifyCaveat. rewrite Htp, Hdec, Hsome.
    rewrite (discharge_minted_and_bound _ _ _ _ _ _ _ _ Hne Hall).
    reflexivity.
Qed.

(** More fuel never changes a result. *)
Lemma verifyCaveats_mono check discharges
    (rec rec' : Macaroon.t -> bytes -> option (bool * option error)) l :
  (forall dm cavKey r, rec dm cavKey = Some r -> rec' dm cavKey = Some r) ->
  forall i s t,
    verifyCaveats check discharges rec i l s = Some t ->
    verifyCaveats check discharges rec' i l s = Some t.
Proof.
  intros Hrec. induction l as [|cav l IH]; intros i s t; [trivial|].
  cbn [verifyCaveats].
  assert (Hcav : forall t',
             verifyCaveat check discharges rec i cav s = Some t' ->
             verifyCaveat check discharges rec' i cav s = Some t').
  { intros t'. unfold verifyCaveat.
    destruct (Caveat.IsThirdParty cav); [|trivial].
    destruct (decrypt s (Caveat.verificationId cav)) as [cavKey|e]; [|trivial].
    destruct (discharges !! Caveat.caveatId cav) as [dm|]; [|trivial].
    destruct (rec dm cavKey) as [r|] eqn:Hr; [|discriminate].
    rewrite (Hrec _ _ _ Hr). trivial. }
  destruct (verifyCaveat check discharges rec i cav s) as [t'|]; [|discriminate].
  rewrite (Hcav t' eq_refl). destruct t' as [s'|ok err]; [apply IH|trivial].
Qed.

Lemma verify_mono fuel : forall m rootSig rootKey check discharges r,
  verify fuel m rootSig rootKey check discharges = Some r ->
  verify (S fuel) m rootSig rootKey check discharges = Some r.
Proof.
  induction fuel as [|fuel IH]; intros m rootSig rootKey check discharges r;
    [discriminate|].
  rewrite (verify_step (S fuel)), (verify_step fuel). cbv zeta.
  set (rootSig' := if (length rootSig =? 0)%nat then _ else _).
  destruct (verifyCaveats check discharges
              (discharge fuel rootSig' check discharges) 0
              (Macaroon.caveats m) (keyedHash rootKey (Macaroon.id m)))
    as [t|] eqn:Ht; [|discriminate].
  rewrite (verifyCaveats_mono check discharges
             (discharge fuel rootSig' check discharges)
             (discharge (S fuel) rootSig' check discharges)
             (Macaroon.caveats m)
             (fun dm cavKey r' => IH dm rootSig' cavKey check discharges r')
             0 _ _ Ht).
  trivial.
Qed.


End VerifyResults.

(** ** The third-party caveat id codec *)

Section CodecResults.

Context `{P : Primitives}.

(** C8, for the conditions that the JSON codec gives back.  When base64
    decoding undoes encoding, decryption undoes encryption, and the JSON
    codec gives the payload back, the caveat id that
    [AddThirdPartyCaveat] returns decrypts, under the secret it was made
    with, to the condition that was given and the nonce that was drawn as
    root key. *)
Theorem DecryptThirdPartyCaveatId_inverts_AddThirdPartyCaveat :
  forall (m m' : Macaroon.t) (secret nonce : bytes) (caveat loc id : string)
         (g g1 g' : entropy),
    base64_inverse ->
    cipher_inverse ->
    newNonce g = (Ok nonce, g1) ->
    json_inverse {| ThirdPartyCaveatId.RootKey := nonce;
                    ThirdPartyCaveatId.Caveat := caveat |} ->
    AddThirdPartyCaveat m secret caveat loc g = (Ok id, m', g') ->
    DecryptThirdPartyCaveatId secret id
      = Ok {| ThirdPartyCaveatId.RootKey := nonce;
              ThirdPartyCaveatId.Caveat := caveat |}.
Proof.
  intros m m' secret nonce caveat loc id g g1 g' Hb64 Hcipher Hnonce Hjson.
  unfold AddThirdPartyCaveat. rewrite Hnonce.
  destruct (json_Marshal _) as [data|e] eqn:Hdata; [|discriminate].
  destruct (encrypt secret data g1) as [[cid|e] g2] eqn:Hcid;
    [|discriminate].
  destruct (encrypt (Macaroon.sig m) nonce g2) as [[vid|e] g3];
    [|discriminate].
  intros [= <- _ _]. unfold DecryptThirdPartyCaveatId.
  rewrite Hb64, (Hcipher _ _ _ _ _ Hcid), (Hjson _ Hdata). reflexivity.
Qed.

End CodecResults.

(** ** Discharging *)

Section DischargeResults.

Context {Caveat World C D F : Type}.
Context `{!bakery.ThirdPartyChecker Caveat World C}.
Context `{!bakery.CaveatIdDecoder World D}.
Context `{!bakery.NewMacarooner Caveat World F}.

(** C9.  If the decoder fails on the caveat id, [Discharge] returns no
    macaroon and the decode error, whatever the factory, and the world
    is as the decoder left it.  If the decoder succeeds and the checker
    returns an error for the condition, [Discharge] returns no macaroon
    and that error, whatever the factory, and the world is as the checker
    left it.  When both succeed the result is the factory's, called with
    the caveat id as identifier, the decoded root key and the checker's
    caveats. *)
Theorem Discharge_cases :
  forall (d : bakery.Discharger C D F) (id : string) (w w1 : World)
         (rootKey : bytes) (condition : string) (derr : option error),
    bakery.DecodeCaveatId (bakery.Decoder d) id w
      = ((rootKey, condition, derr), w1) ->
    match derr with
    | Some e =>
        forall f : F,
          bakery.Discharge
            (bakery.mkDischarger (bakery.Checker d) (bakery.Decoder d) f)
            id w
          = ((None, Some (ErrCannotDecodeCaveatId e)), w1)
    | None =>
        forall (caveats : list Caveat) (cerr : option error) (w2 : World),
          bakery.CheckThirdPartyCaveat (bakery.Checker d) condition w1
            = ((caveats, cerr), w2) ->
          match cerr with
          | Some e =>
              forall f : F,
                bakery.Discharge
                  (bakery.mkDischarger (bakery.Checker d)
                     (bakery.Decoder d) f)
                  id w
                = ((None, Some e), w2)
          | None =>
              bakery.Discharge d id w
              = bakery.NewMacaroon (bakery.Factory d) id rootKey caveats w2
          end
    end.
Proof.
  intros d id w w1 rootKey condition derr Hdec.
  destruct derr as [e|].
  - intros f. unfold bakery.Discharge. cbn [bakery.Decoder].
    rewrite Hdec. reflexivity.
  - intros caveats cerr w2 Hck. destruct cerr as [e|].
    + intros f. unfold bakery.Discharge.
      cbn [bakery.Decoder bakery.Checker]. rewrite Hdec, Hck. reflexivity.
    + unfold bakery.Discharge. rewrite Hdec, Hck. reflexivity.
Qed.

End DischargeResults.

(** ** The results on the sample instance *)

Section SampleResults.

Import Sample.

Lemma sample_base64_inverse : base64_inverse.
Proof. intros b. cbn. f_equal. apply list_byte_of_string_of_list_byte. Qed.

Lemma sample_cipher_inverse : cipher_inverse.
Proof.
  intros key text g c g' [= <- _]. cbn. unfold open.
  rewrite take_app_length, drop_app_length, bool_decide_eq_true_2;
    reflexivity.
Qed.

Lemma sample_json_inverse :
  json_inverse {| ThirdPartyCaveatId.RootKey := guardKey;
                  ThirdPartyCaveatId.Caveat := "is-member" |}.
Proof. intros data [= <-]. reflexivity. Qed.

(** The account macaroon with its time caveat, verified under the wrong
    root key. *)
Lemma Verify_signature_mismatch_witness :
  let caveatSig :=
    foldCaveat (keyedHash wrong "account-1") (firstParty condition) in
  verifyCaveats accept ∅ (discharge 0 (Macaroon.sig timed) accept ∅)
    0 (Macaroon.caveats timed) (keyedHash wrong (Macaroon.id timed))
    = Some (Continue caveatSig) /\
  bindForRequest (Macaroon.sig timed) caveatSig <> Macaroon.sig timed /\
  Verify 1 timed wrong accept ∅ = Some (false, Some ErrSignatureMismatch).
Proof.
  intros caveatSig.
  assert (H1 : verifyCaveats accept ∅
                 (discharge 0 (Macaroon.sig timed) accept ∅)
                 0 (Macaroon.caveats timed)
                 (keyedHash wrong (Macaroon.id timed))
               = Some (Continue caveatSig)) by reflexivity.
  assert (H2 : bindForRequest (Macaroon.sig timed) caveatSig
               <> Macaroon.sig timed)
    by (intros H; vm_compute in H; discriminate H).
  split; [exact H1|]. split; [exact H2|].
  exact (Verify_signature_mismatch 0 timed wrong accept ∅ caveatSig H1 H2).
Defined.

(** The same macaroon under a checker that rejects with an error. *)
Lemma Verify_check_failure_witness :
  Macaroon.caveats timed = [] ++ firstParty condition :: [] /\
  Caveat.IsThirdParty (firstParty condition) = false /\
  rejectWithError condition = (false, Some (ErrOther "clock unavailable")) /\
  Verify 1 timed secret rejectWithError ∅
    = Some (false, Some (ErrOther "clock unavailable")).
Proof.
  split; [reflexivity|]. split; [reflexivity|]. split; [reflexivity|].
  apply (Verify_check_failure 0 timed secret rejectWithError ∅
           [] [] (firstParty condition) (keyedHash secret "account-1")
           (Some (ErrOther "clock unavailable")));
    reflexivity.
Defined.

(** C4.  The account macaroon with its time caveat, under a checker that
    reports an error for the condition and answers true alongside it: the
    check error is not surfaced.  [Verify] drops it and returns
    [(true, nil)], where the documentation of [Verify] has [(false, err)]
    for a verification that cannot be asserted. *)
Lemma Verify_drops_error_given_with_true :
  Macaroon.caveats timed = [firstParty condition] /\
  acceptWithError (Caveat.caveatId (firstParty condition))
    = (true, Some (ErrOther "clock unavailable")) /\
  Verify 1 timed secret acceptWithError ∅ = Some (true, None) /\
  Verify 1 timed secret acceptWithError ∅
    <> Some (false, Some (ErrOther "clock unavailable")).
Proof.
  split; [reflexivity|]. split; [reflexivity|]. split; [reflexivity|].
  intros H. vm_compute in H. discriminate H.
Qed.

(** The macaroon with the third-party caveat, verified without its
    discharge macaroon and with it. *)
Lemma Verify_third_party_caveat_witness :
  Macaroon.caveats guarded = [firstParty condition] ++ guard :: [] /\
  Caveat.IsThirdParty guard = true /\
  decrypt (Macaroon.sig timed) (Caveat.verificationId guard) = Ok guardKey /\
  Verify 1 guarded secret accept ∅
    = Some (false, Some (ErrDischargeNotFound 1)) /\
  verifyCaveats accept {[ guardId := guardDischarge ]}
    (discharge 1 (Macaroon.sig guarded) accept
       {[ guardId := guardDischarge ]})
    0 ([firstParty condition] ++ [guard])
    (keyedHash secret (Macaroon.id guarded))
    = Some (Continue (foldCaveat (Macaroon.sig timed) guard)).
Proof.
  assert (Hc : Macaroon.caveats guarded
               = [firstParty condition] ++ guard :: []) by reflexivity.
  assert (Htp : Caveat.IsThirdParty guard = true) by reflexivity.
  assert (Hdec : decrypt (Macaroon.sig timed) (Caveat.verificationId guard)
                 = Ok guardKey) by (vm_compute; reflexivity).
  assert (Hpre : forall fuel discharges,
             verifyCaveats accept discharges
               (discharge fuel (Macaroon.sig guarded) accept discharges)
               0 [firstParty condition]
               (keyedHash secret (Macaroon.id guarded))
             = Some (Continue (Macaroon.sig timed)))
    by (intros fuel discharges; vm_compute; reflexivity).
  split; [exact Hc|]. split; [exact Htp|]. split; [exact Hdec|]. split.
  - apply (proj1 (Verify_third_party_caveat 0 guarded secret accept ∅
                    [firstParty condition] [] guard (Macaroon.sig timed)
                    guardKey Hc Htp (Hpre 0%nat ∅) Hdec)).
    vm_compute. reflexivity.
  - apply (proj2 (Verify_third_party_caveat 1 guarded secret accept
                    {[ guardId := guardDischarge ]}
                    [firstParty condition] [] guard (Macaroon.sig timed)
                    guardKey Hc Htp
                    (Hpre 1%nat {[ guardId := guardDischarge ]}) Hdec)
             "auth" [condition]).
    + vm_compute. reflexivity.
    + repeat constructor.
    + intros H. vm_compute in H. discriminate H.
    + lia.
Defined.

(** The caveat id of that third-party caveat decrypts to the nonce and
    the condition. *)
Lemma DecryptThirdPartyCaveatId_witness :
  @newNonce primitives 0%nat = (Ok guardKey, 1%nat) /\
  AddThirdPartyCaveat timed thirdPartySecret "is-member" "auth" 0%nat
    = (Ok guardId, guarded, 3%nat) /\
  DecryptThirdPartyCaveatId thirdPartySecret guardId
    = Ok {| ThirdPartyCaveatId.RootKey := guardKey;
            ThirdPartyCaveatId.Caveat := "is-member" |}.
Proof.
  split; [reflexivity|]. split; [vm_compute; reflexivity|].
  apply (DecryptThirdPartyCaveatId_inverts_AddThirdPartyCaveat
           (P := primitives) timed guarded thirdPartySecret guardKey "is-member" "auth"
           guardId 0%nat 1%nat 3%nat
           sample_base64_inverse sample_cipher_inverse eq_refl
           sample_json_inverse).
  vm_compute. reflexivity.
Defined.

(** A document with a bad signature, unmarshalled into the account
    macaroon with its time caveat. *)
Lemma UnmarshalDoc_not_atomic_witness :
  hex.well_formed (Macaroon.Signature badDoc) = false /\
  exists (m' : Macaroon.t) (e : error),
    UnmarshalDoc timed badDoc = (m', Some e) /\
    Macaroon.location m' = "elsewhere" /\
    Macaroon.id m' = "account-2" /\
    Macaroon.caveats m' = [firstParty condition] /\
    Macaroon.sig m' = [].
Proof.
  split; [reflexivity|].
  apply (UnmarshalDoc_not_atomic timed badDoc). reflexivity.
Defined.

(** A discharger whose checker rejects the condition of a caveat id it
    can decode: the decoder and the checker are called, the factory is
    not. *)
Lemma Discharge_cases_witness :
  bakery.DecodeCaveatId (bakery.Decoder (discharger [])) "id-1" []
    = ((guardKey, "is-member", None), [Decoded "id-1"]) /\
  bakery.CheckThirdPartyCaveat (bakery.Checker (discharger []))
    "is-member" [Decoded "id-1"]
    = (([], Some (ErrOther "condition does not hold")),
       [Decoded "id-1"; Checked "is-member"]) /\
  bakery.Discharge (discharger []) "id-1" []
    = ((None, Some (ErrOther "condition does not hold")),
       [Decoded "id-1"; Checked "is-member"]).
Proof.
  split; [reflexivity|]. split; [reflexivity|].
  exact (Discharge_cases (discharger []) "id-1" [] [Decoded "id-1"]
           guardKey "is-member" None eq_refl
           [] (Some (ErrOther "condition does not hold"))
           [Decoded "id-1"; Checked "is-member"] eq_refl "auth").
Defined.

End SampleResults.

(** ** More on verification *)

Section VerifyMore.

Context `{P : Primitives}.

Implicit Types (check : string -> bool * option error).
Implicit Types (discharges : gmap string Macaroon.t).
Implicit Types (m dm : Macaroon.t) (cav : Caveat.t).

(** The loop body never returns true, and goes on only past a passable
    caveat, with the chained signature. *)
Lemma verifyCaveat_inv check discharges rec i cav s t :
  verifyCaveat check discharges rec i cav s = Some t ->
  match t with
  | Return ok _ => ok = false
  | Continue s' => s' = foldCaveat s cav /\ passable check discharges cav
  end.
Proof.
  unfold verifyCaveat, passable.
  destruct (Caveat.IsThirdParty cav).
  - destruct (decrypt s (Caveat.verificationId cav)) as [cavKey|e];
      [|intros [= <-]; reflexivity].
    destruct (discharges !! Caveat.caveatId cav) as [dm|];
      [|intros [= <-]; reflexivity].
    destruct (rec dm cavKey) as [[[] err]|]; cbn; intros [= <-]; eauto.
  - destruct (check (Caveat.caveatId cav)) as [[] err]; cbn;
      intros [= <-]; auto.
Qed.

Lemma verifyCaveats_inv check discharges rec l : forall i s t,
  verifyCaveats check discharges rec i l s = Some t ->
  match t with
  | Return ok _ => ok = false
  | Continue s' =>
      s' = fold_left foldCaveat l s /\ Forall (passable check discharges) l
  end.
Proof.
  induction l as [|cav l IH]; intros i s t.
  - intros [= <-]. split; [reflexivity|constructor].
  - cbn [verifyCaveats fold_left].
    destruct (verifyCaveat check discharges rec i cav s) as [t1|] eqn:Hcav;
      [|discriminate].
    apply verifyCaveat_inv in Hcav.
    destruct t1 as [s1|ok1 err1].
    + destruct Hcav as [-> Hp]. intros Hrest. apply IH in Hrest.
      destruct t as [s'|ok err]; [|exact Hrest].
      destruct Hrest as [-> Hl]. split; [reflexivity|constructor; assumption].
    + intros [= <-]. exact Hcav.
Qed.

(** X1.  [Verify] never returns true together with an error.  When it
    returns true, the signature recomputed from the root key over the
    caveats, bound to the stored signature, is the stored signature; the
    checker has answered true for every first-party caveat, and every
    third-party caveat has an entry in the discharge map. *)
Theorem Verify_true_sound :
  forall (fuel : nat) m (rootKey : bytes) check discharges
         (err : option error),
    Verify fuel m rootKey check discharges = Some (true, err) ->
    err = None /\
    bindForRequest (Macaroon.sig m)
      (fold_left foldCaveat (Macaroon.caveats m)
         (keyedHash rootKey (Macaroon.id m)))
      = Macaroon.sig m /\
    Forall (passable check discharges) (Macaroon.caveats m).
Proof.
  intros [|fuel] m rootKey check discharges err; [discriminate|].
  rewrite Verify_top_step.
  destruct (verifyCaveats _ _ _ _ _ _) as [t|] eqn:Hloop; [|discriminate].
  apply verifyCaveats_inv in Hloop. destruct t as [s|ok e].
  - destruct Hloop as [-> Hall]. unfold hmac_Equal.
    case_bool_decide as Heq; cbn; intros [= <-]. auto.
  - subst ok. discriminate.
Qed.

(** Blanking the location hints changes nothing the loop looks at. *)
Lemma verifyCaveats_forgetLocations check discharges
    (rec rec' : Macaroon.t -> bytes -> option (bool * option error)) l :
  (forall dm cavKey, rec' (forgetLocations dm) cavKey = rec dm cavKey) ->
  forall i s,
    verifyCaveats check (forgetLocations <$> discharges) rec' i
      (map forgetCaveatLocation l) s
    = verifyCaveats check discharges rec i l s.
Proof.
  intros Hrec. induction l as [|cav l IH]; intros i s; [reflexivity|].
  cbn [map verifyCaveats].
  assert (Hcav : verifyCaveat check (forgetLocations <$> discharges) rec' i
                   (forgetCaveatLocation cav) s
                 = verifyCaveat check discharges rec i cav s).
  { unfold verifyCaveat. cbn [forgetCaveatLocation Caveat.caveatId
      Caveat.verificationId Caveat.IsThirdParty].
    change (Caveat.IsThirdParty (forgetCaveatLocation cav))
      with (Caveat.IsThirdParty cav).
    destruct (Caveat.IsThirdParty cav); [|reflexivity].
    destruct (decrypt s (Caveat.verificationId cav)); [|reflexivity].
    rewrite lookup_fmap.
    destruct (discharges !! Caveat.caveatId cav) as [dm|]; [|reflexivity].
    cbn. rewrite Hrec. reflexivity. }
  rewrite Hcav.
  destruct (verifyCaveat check discharges rec i cav s) as [[s'|ok err]|];
    [apply IH|reflexivity..].
Qed.

Lemma verify_forgetLocations :
  forall (fuel : nat) m (rootSig rootKey : bytes) check discharges,
    verify fuel (forgetLocations m) rootSig rootKey check
      (forgetLocations <$> discharges)
    = verify fuel m rootSig rootKey check discharges.
Proof.
  induction fuel as [|fuel IH]; intros m rootSig rootKey check discharges;
    [reflexivity|].
  rewrite !verify_step. cbv zeta.
  cbn [forgetLocations Macaroon.sig Macaroon.id Macaroon.caveats].
  rewrite (verifyCaveats_forgetLocations check discharges
             (discharge fuel
                (if (length rootSig =? 0)%nat then Macaroon.sig m else rootSig)
                check discharges)).
  - reflexivity.
  - intros dm cavKey. apply IH.
Qed.

(** X2.  Location hints are not verified: a macaroon verifies the same
    with the location of the macaroon, of its caveats and of the discharge
    macaroons all blanked. *)
Theorem Verify_ignores_locations :
  forall (fuel : nat) m (rootKey : bytes) check discharges,
    Verify fuel (forgetLocations m) rootKey check
      (forgetLocations <$> discharges)
    = Verify fuel m rootKey check discharges.
Proof.
  intros fuel m rootKey check discharges. unfold Verify.
  apply verify_forgetLocations.
Qed.

(** Without third-party caveats the loop uses neither the discharge map
    nor the recursive call. *)
Lemma verifyCaveats_first_party check discharges discharges'
    (rec rec' : Macaroon.t -> bytes -> option (bool * option error)) l :
  Forall (fun cav => Caveat.IsThirdParty cav = false) l ->
  forall i s,
    verifyCaveats check discharges rec i l s
    = verifyCaveats check discharges' rec' i l s.
Proof.
  induction 1 as [|cav l Hcav _ IH]; intros i s; [reflexivity|].
  cbn [verifyCaveats]. unfold verifyCaveat. rewrite Hcav.
  destruct (check (Caveat.caveatId cav)) as [[] err]; cbn;
    [apply IH|reflexivity].
Qed.

(** X3.  A macaroon without third-party caveats is verified without the
    discharge map and without recursion: the result is the one obtained
    with no discharge macaroons and the least fuel. *)
Theorem Verify_without_third_party :
  forall (fuel : nat) m (rootKey : bytes) check discharges,
    Forall (fun cav => Caveat.IsThirdParty cav = false) (Macaroon.caveats m) ->
    Verify (S fuel) m rootKey check discharges
    = Verify 1 m rootKey check ∅.
Proof.
  intros fuel m rootKey check discharges Hfp. rewrite !Verify_top_step.
  rewrite (verifyCaveats_first_party check discharges ∅ _
             (discharge 0 (Macaroon.sig m) check ∅) _ Hfp).
  reflexivity.
Qed.

(** X4.  When the loop reaches a third-party caveat whose verification id
    does not decrypt under the running signature, [Verify] returns false
    with the decryption error for that caveat, whatever the discharge map
    holds. *)
Theorem Verify_decrypt_failure :
  forall (fuel : nat) m (rootKey : bytes) check discharges
         (pre post : list Caveat.t) cav (s : bytes) (e : error),
    Macaroon.caveats m = pre ++ cav :: post ->
    Caveat.IsThirdParty cav = true ->
    verifyCaveats check discharges
      (discharge fuel (Macaroon.sig m) check discharges)
      0 pre (keyedHash rootKey (Macaroon.id m)) = Some (Continue s) ->
    decrypt s (Caveat.verificationId cav) = Err e ->
    Verify (S fuel) m rootKey check discharges
      = Some (false, Some (ErrDecryptCaveat (length pre) e)).
Proof.
  intros fuel m rootKey check discharges pre post cav s e Hc Htp Hpre Hdec.
  eapply Verify_stops; [exact Hc|exact Hpre|].
  unfold verifyCaveat. rewrite Htp, Hdec. reflexivity.
Qed.

(** A macaroon whose caveats are all accepted and whose signature is the
    plain chain, verified as a discharge against a root signature it was
    not bound to. *)
Lemma discharge_unbound fuel dm rootSig cavKey check discharges :
  Forall (accepted check) (Macaroon.caveats dm) ->
  Macaroon.sig dm
    = fold_left foldCaveat (Macaroon.caveats dm)
        (keyedHash cavKey (Macaroon.id dm)) ->
  rootSig <> [] ->
  bindForRequest rootSig (Macaroon.sig dm) <> Macaroon.sig dm ->
  discharge (S fuel) rootSig check discharges dm cavKey
  = Some (false, Some ErrSignatureMismatch).
Proof.
  intros Hall Hsig Hne Hbind. unfold discharge. rewrite verify_step.
  assert (Hlen : (length rootSig =? 0)%nat = false).
  { destruct rootSig; [congruence|reflexivity]. }
  cbv zeta. rewrite Hlen.
  rewrite (verifyCaveats_accepted _ _ _ _ _ _ Hall), <- Hsig.
  unfold hmac_Equal. rewrite bool_decide_eq_false_2 by exact Hbind.
  reflexivity.
Qed.

(** X5.  [Bind] has to be used on a discharge macaroon before [Verify]
    sees it.  Let the stored signature of the macaroon under verification
    be not empty, and let the loop reach a third-party caveat whose
    verification id decrypts under the running signature.  When the
    discharge macaroon found for it carries the plain chain over accepted
    first-party caveats as its signature, and binding that signature to
    the signature of the macaroon under verification would have changed
    it, [Verify] returns false with the signature mismatch error. *)
Theorem Verify_unbound_discharge :
  forall (fuel : nat) m dm (rootKey : bytes) check discharges
         (pre post : list Caveat.t) cav (s cavKey : bytes),
    Macaroon.caveats m = pre ++ cav :: post ->
    Caveat.IsThirdParty cav = true ->
    verifyCaveats check discharges
      (discharge (S fuel) (Macaroon.sig m) check discharges)
      0 pre (keyedHash rootKey (Macaroon.id m)) = Some (Continue s) ->
    decrypt s (Caveat.verificationId cav) = Ok cavKey ->
    discharges !! Caveat.caveatId cav = Some dm ->
    Forall (accepted check) (Macaroon.caveats dm) ->
    Macaroon.sig dm
      = fold_left foldCaveat (Macaroon.caveats dm)
          (keyedHash cavKey (Macaroon.id dm)) ->
    Macaroon.sig m <> [] ->
    bindForRequest (Macaroon.sig m) (Macaroon.sig dm) <> Macaroon.sig dm ->
    Verify (S (S fuel)) m rootKey check discharges
      = Some (false, Some ErrSignatureMismatch).
Proof.
  intros fuel m dm rootKey check discharges pre post cav s cavKey
    Hc Htp Hpre Hdec Hdm Hall Hsig Hne Hbind.
  eapply Verify_stops; [exact Hc|exact Hpre|].
  unfold verifyCaveat. rewrite Htp, Hdec, Hdm.
  rewrite (discharge_unbound _ _ _ _ _ _ Hall Hsig Hne Hbind). reflexivity.
Qed.

(** X7.  A discharge macaroon can send [verify] back to itself.  When its
    first caveat is a third-party caveat whose verification id decrypts,
    under the keyed hash of the macaroon's identifier, to the very key
    [verify] was called with, and the discharge map has the macaroon
    itself under that caveat's id, [verify] does not return: no amount of
    fuel gives a result. *)
Theorem verify_self_discharge_never_returns :
  forall dm (cavKey : bytes) check discharges cav (rest : list Caveat.t),
    Macaroon.caveats dm = cav :: rest ->
    Caveat.IsThirdParty cav = true ->
    decrypt (keyedHash cavKey (Macaroon.id dm)) (Caveat.verificationId cav)
      = Ok cavKey ->
    discharges !! Caveat.caveatId cav = Some dm ->
    forall (fuel : nat) (rootSig : bytes),
      verify fuel dm rootSig cavKey check discharges = None.
Proof.
  intros dm cavKey check discharges cav rest Hc Htp Hdec Hdm.
  induction fuel as [|fuel IH]; intros rootSig; [reflexivity|].
  rewrite verify_step. cbv zeta. rewrite Hc. cbn [verifyCaveats].
  unfold verifyCaveat. rewrite Htp, Hdec, Hdm.
  unfold discharge. rewrite IH. reflexivity.
Qed.

End VerifyMore.

(** ** More on caveat additions *)

Section ChainMore.

Context `{P : Primitives}.

Lemma add_extends m g a :
  let m' := fst (add (m, g) a) in
  Macaroon.caveats m `prefix_of` Macaroon.caveats m' /\
  (length (Macaroon.caveats m') <= S (length (Macaroon.caveats m)))%nat /\
  Macaroon.id m' = Macaroon.id m /\
  Macaroon.location m' = Macaroon.location m.
Proof.
  destruct a as [caveatId|secret caveat loc]; cbn [add fst].
  - cbn. rewrite length_app. cbn. repeat split; [|lia].
    apply prefix_app_r. reflexivity.
  - unfold AddThirdPartyCaveat.
    destruct (newNonce g) as [[nonce|e] g1];
      [|cbn; repeat split; [reflexivity|lia]].
    destruct (json_Marshal _) as [data|e];
      [|cbn; repeat split; [reflexivity|lia]].
    destruct (encrypt secret data g1) as [[cid|e] g2];
      [|cbn; repeat split; [reflexivity|lia]].
    destruct (encrypt (Macaroon.sig m) nonce g2) as [[vid|e] g3];
      [|cbn; repeat split; [reflexivity|lia]].
    cbn. rewrite length_app. cbn. repeat split; [|lia].
    apply prefix_app_r. reflexivity.
Qed.

(** X8.  Caveats are only ever added at the end.  After any sequence of
    first- and third-party additions the caveats the macaroon had are
    still there, in front and in the same order, at most one caveat has
    been added per addition, and the identifier and the location are what
    they were. *)
Theorem additions_only_append :
  forall (l : list addition) (m : Macaroon.t) (g : entropy),
    let m' := fst (addAll m g l) in
    Macaroon.caveats m `prefix_of` Macaroon.caveats m' /\
    (length (Macaroon.caveats m')
       <= length (Macaroon.caveats m) + length l)%nat /\
    Macaroon.id m' = Macaroon.id m /\
    Macaroon.location m' = Macaroon.location m.
Proof.
  unfold addAll. induction l as [|a l IH]; intros m g.
  - cbn. repeat split; [reflexivity|lia].
  - cbn [fold_left length].
    pose proof (add_extends m g a) as Ha. cbv zeta in Ha.
    destruct (add (m, g) a) as [m1 g1]. cbn [fst] in Ha.
    destruct Ha as (Hp & Hn & Hi & Hl).
    destruct (IH m1 g1) as (Hp' & Hn' & Hi' & Hl').
    repeat split.
    + etransitivity; eassumption.
    + lia.
    + congruence.
    + congruence.
Qed.

End ChainMore.

(** ** More on documents *)

Section DocumentMore.

Lemma hex_decode_nil (s : string) :
  hex.well_formed s = true -> fst (hex.DecodeString s) = [] -> s = "".
Proof.
  unfold hex.well_formed. destruct s as [|p [|q rest]]; [reflexivity|discriminate|].
  cbn [hex.DecodeString hex.all_digits String.length Nat.even].
  unfold hex.is_digit.
  destruct (hex.fromHexChar p); [|rewrite andb_false_r; discriminate].
  destruct (hex.fromHexChar q);
    [|cbn [andb]; rewrite andb_false_r; discriminate].
  destruct (hex.DecodeString rest). discriminate.
Qed.

Lemma UnmarshalDoc_MarshalDoc (m0 m : Macaroon.t) :
  UnmarshalDoc m0 (MarshalDoc m) = (m, None).
Proof.
  unfold UnmarshalDoc, MarshalDoc. cbn.
  rewrite hex_decode_encode. destruct m; reflexivity.
Qed.

(** X9.  [Caveat.UnmarshalDoc] always takes the location and the caveat
    id from the document, and succeeds exactly when the [vid] of the
    document is well-formed hexadecimal text; the caveat it then gives is
    a third-party caveat exactly when the [vid] is not empty. *)
Theorem Caveat_UnmarshalDoc_outcome :
  forall (cav : Caveat.t) (doc : Caveat.Doc),
    let cav' := fst (Caveat.UnmarshalDoc cav doc) in
    let err := snd (Caveat.UnmarshalDoc cav doc) in
    Caveat.location cav' = Caveat.Location doc /\
    Caveat.caveatId cav' = Caveat.CID doc /\
    (err = None <-> hex.well_formed (Caveat.VID doc) = true) /\
    (err = None ->
     (Caveat.IsThirdParty cav' = true <-> Caveat.VID doc <> "")).
Proof.
  intros cav doc. unfold Caveat.UnmarshalDoc.
  pose proof (hex_decode_error_iff (Caveat.VID doc)) as Hiff.
  pose proof (hex_decode_nil (Caveat.VID doc)) as Hnil.
  destruct (hex.DecodeString (Caveat.VID doc)) as [vid [e|]] eqn:Hdec;
    cbn [fst snd] in *.
  - repeat split; try discriminate.
    intros Hwf. apply Hiff in Hwf. discriminate.
  - repeat split; try tauto.
    + intros Htp Hempty. rewrite Hempty in Hdec. cbn in Hdec.
      injection Hdec as <-. discriminate.
    + intros Hne. unfold Caveat.IsThirdParty. cbn.
      destruct vid; [|reflexivity].
      destruct Hne. apply Hnil; [apply Hiff|]; reflexivity.
Qed.

Lemma UnmarshalDoc_error_iff (m : Macaroon.t) (doc : Macaroon.Doc) :
  snd (UnmarshalDoc m doc) = None
  <-> hex.well_formed (Macaroon.Signature doc) = true.
Proof.
  unfold UnmarshalDoc.
  pose proof (hex_decode_error_iff (Macaroon.Signature doc)) as Hiff.
  destruct (hex.DecodeString (Macaroon.Signature doc)) as [sig [e|]];
    cbn [fst snd] in *; [|tauto].
  split; [discriminate|]. intros Hwf. apply Hiff in Hwf. discriminate.
Qed.

(** X10.  [UnmarshalDoc] succeeds exactly when the signature of the
    document is well-formed hexadecimal text, and then nothing of the
    receiver is left: the macaroon has the location, identifier and
    caveats of the document and the decoded signature. *)
Theorem UnmarshalDoc_success :
  forall (m : Macaroon.t) (doc : Macaroon.Doc),
    (snd (UnmarshalDoc m doc) = None
     <-> hex.well_formed (Macaroon.Signature doc) = true) /\
    (hex.well_formed (Macaroon.Signature doc) = true ->
     UnmarshalDoc m doc
     = ({| Macaroon.location := Macaroon.Location doc;
           Macaroon.id := Macaroon.Identifier doc;
           Macaroon.caveats := Macaroon.Caveats doc;
           Macaroon.sig := fst (hex.DecodeString (Macaroon.Signature doc)) |},
        None)).
Proof.
  intros m doc. unfold UnmarshalDoc.
  pose proof (hex_decode_error_iff (Macaroon.Signature doc)) as Hiff.
  destruct (hex.DecodeString (Macaroon.Signature doc)) as [sig [e|]];
    cbn [fst snd] in *.
  - split; [split; [discriminate|]|]; intros Hwf; apply Hiff in Hwf;
      discriminate.
  - split; [tauto|reflexivity].
Qed.

End DocumentMore.

(** ** JSON *)

Section JSONResults.

Context `{J : DocCodec}.

(** X11.  When the JSON codec gives documents back, [UnmarshalJSON]
    undoes [MarshalJSON], for macaroons and for caveats, whatever the
    receiver held. *)
Theorem UnmarshalJSON_MarshalJSON :
  (forall (m0 m : Macaroon.t) (data : bytes),
     doc_inverse (MarshalDoc m) ->
     MarshalJSON m = inl data ->
     UnmarshalJSON m0 data = (m, None)) /\
  (forall (cav0 cav : Caveat.t) (data : bytes),
     CaveatJSON.doc_inverse (Caveat.MarshalDoc cav) ->
     CaveatJSON.MarshalJSON cav = inl data ->
     CaveatJSON.UnmarshalJSON cav0 data = (cav, None)).
Proof.
  split.
  - intros m0 m data Hinv Hdata. unfold MarshalJSON in Hdata.
    unfold UnmarshalJSON.
    destruct (json_Marshal_MacaroonDoc (MarshalDoc m)) as [d|e] eqn:Hm;
      [|discriminate].
    injection Hdata as <-.
    rewrite (Hinv _ Hm), UnmarshalDoc_MarshalDoc. reflexivity.
  - intros cav0 cav data Hinv.
    unfold CaveatJSON.MarshalJSON, CaveatJSON.UnmarshalJSON.
    destruct (json_Marshal_CaveatDoc (Caveat.MarshalDoc cav)) as [d|e] eqn:Hm;
      [|discriminate].
    intros [= <-]. rewrite (Hinv _ Hm), Caveat_doc_roundtrip. reflexivity.
Qed.

Lemma UnmarshalJSON_undoes_MarshalJSON (m0 m : Macaroon.t) (data : bytes) :
  doc_inverse (MarshalDoc m) ->
  MarshalJSON m = inl data ->
  UnmarshalJSON m0 data = (m, None).
Proof.
  intros Hinv. unfold MarshalJSON, UnmarshalJSON.
  destruct (json_Marshal_MacaroonDoc (MarshalDoc m)) as [d|e] eqn:Hm;
    [|discriminate].
  intros [= <-]. rewrite (Hinv _ Hm), UnmarshalDoc_MarshalDoc. reflexivity.
Qed.

(** X12.  [UnmarshalJSON] changes the receiver only once the text has
    parsed: on a text the codec rejects the macaroon is as it was, and on
    one it accepts the location and the identifier are those of the parsed
    document, whether or not the signature then decodes. *)
Theorem UnmarshalJSON_receiver :
  forall (m : Macaroon.t) (jsonData : bytes),
    match json_Unmarshal_MacaroonDoc jsonData with
    | Err e => UnmarshalJSON m jsonData = (m, Some (CannotUnmarshalJSON e))
    | Ok doc =>
        Macaroon.location (fst (UnmarshalJSON m jsonData))
          = Macaroon.Location doc /\
        Macaroon.id (fst (UnmarshalJSON m jsonData))
          = Macaroon.Identifier doc /\
        (snd (UnmarshalJSON m jsonData) = None
         <-> hex.well_formed (Macaroon.Signature doc) = true)
    end.
Proof.
  intros m jsonData. unfold UnmarshalJSON.
  destruct (json_Unmarshal_MacaroonDoc jsonData) as [doc|e]; [|reflexivity].
  pose proof (UnmarshalDoc_error_iff m doc) as Hiff.
  unfold UnmarshalDoc in *.
  destruct (hex.DecodeString (Macaroon.Signature doc)) as [sig [e|]];
    cbn [fst snd fmap option_fmap option_map] in *.
  - repeat split; try discriminate.
    intros Hwf. apply Hiff in Hwf. discriminate.
  - repeat split; tauto.
Qed.

End JSONResults.

(** ** The HTTP client and the cookies *)

Section HTTPResults.

Import httpbakery.

(** The loop gives every field of the list that the header lacks, and
    leaves alone the ones it has: the header is joined with the list, the
    header winning. *)
Lemma copyMissing_union (fields : list (string * list string)) :
  forall h : Header,
    copyMissing fields (Some h) = Some (Some (h ∪ list_to_map fields)).
Proof.
  induction fields as [|[attr val] rest IH]; intros h.
  - cbn. rewrite (right_id_L ∅ (∪)). reflexivity.
  - cbn [copyMissing mbind option_bind list_to_map foldr fst snd].
    destruct (h !! attr) as [v|] eqn:Hattr.
    + rewrite IH. do 2 f_equal. apply map_eq. intros k.
      rewrite !lookup_union. destruct (decide (k = attr)) as [->|Hne].
      * rewrite Hattr, lookup_insert_eq.
        destruct (list_to_map rest !! attr); reflexivity.
      * rewrite lookup_insert_ne by done. reflexivity.
    + rewrite IH. do 2 f_equal.
      rewrite <- insert_union_l. apply insert_union_r, Hattr.
Qed.

(** X13.  The header copy of [CheckRedirect] does not depend on the
    order in which the fields of the first request are visited: in any
    order, a request with a header map ends up with its own fields
    unchanged and, besides, the fields of the first request that it
    lacked. *)
Theorem copyMissing_any_order :
  forall (first h : Header) (fields : list (string * list string)),
    fields ≡ₚ map_to_list first ->
    copyMissing fields (Some h) = Some (Some (h ∪ first)) /\
    forall attr : string,
      (h ∪ first) !! attr
      = match h !! attr with
        | Some val => Some val
        | None => first !! attr
        end.
Proof.
  intros first h fields Hperm. split.
  - rewrite copyMissing_union.
    rewrite (list_to_map_proper fields (map_to_list first)),
      list_to_map_to_list; [reflexivity| |exact Hperm].
    rewrite Hperm. apply NoDup_fst_map_to_list.
  - intros attr. rewrite lookup_union.
    destruct (h !! attr), (first !! attr); reflexivity.
Qed.

(** X14.  [CheckRedirect] on a request that has a header map.  After ten
    or more requests it returns the error and leaves the request alone;
    with none before, it returns without error and leaves the request
    alone; otherwise it returns without error and the request has, besides
    its own fields, the fields of the first request that it lacked. *)
Theorem CheckRedirect_outcome :
  forall (req : Request) (via : list Request) (h : Header),
    RequestHeader req = Some h ->
    CheckRedirect req via
    = if (10 <=? length via)%nat
      then Returns (Some (ErrOther "too many redirects")) req
      else
        match via with
        | [] => Returns None req
        | first :: _ =>
            Returns None
              {| RequestHeader :=
                   Some (h ∪ default ∅ (RequestHeader first)) |}
        end.
Proof.
  intros [header] via h Hh. cbn in Hh. subst header. unfold CheckRedirect.
  destruct (10 <=? length via)%nat; [reflexivity|].
  destruct via as [|first rest]; [reflexivity|].
  cbn [RequestHeader]. rewrite copyMissing_union.
  destruct (RequestHeader first) as [hf|]; cbn [rangeOver default].
  - rewrite list_to_map_to_list. reflexivity.
  - reflexivity.
Qed.

(** X15.  [CheckRedirect] panics when the request has no header map,
    fewer than ten requests came before, and the first of them has a
    header field. *)
Theorem CheckRedirect_nil_header :
  forall (req first : Request) (rest : list Request) (hf : Header),
    RequestHeader req = None ->
    (length (first :: rest) < 10)%nat ->
    RequestHeader first = Some hf ->
    hf <> ∅ ->
    CheckRedirect req (first :: rest) = Panics.
Proof.
  intros req first rest hf Hreq Hlen Hfirst Hne. unfold CheckRedirect.
  destruct (Nat.leb_spec 10 (length (first :: rest))) as [Hge|_]; [lia|].
  rewrite Hreq, Hfirst. cbn [rangeOver].
  destruct (map_to_list hf) as [|[attr val] fields] eqn:Hlist.
  - apply map_to_list_empty_iff in Hlist. contradiction.
  - reflexivity.
Qed.

End HTTPResults.

Section NewRequestResults.

Import httpbakery.

Context `{P : Primitives} `{J : DocCodec}.
Context {FirstPartyChecker BakeryRequest : Type}.
Variable Service_NewRequest : FirstPartyChecker -> BakeryRequest.
Variable AddClientMacaroon : BakeryRequest -> Macaroon.t -> BakeryRequest.

(** X16.  A cookie that [NewRequest] cannot use is passed over and the
    cookies after it are still read: the request is the same as without
    that cookie.  This holds for a cookie whose name does not start with
    [macaroon-], whose value is not base64, or whose decoded value does not
    unmarshal into a macaroon. *)
Theorem NewRequest_skips_cookie :
  forall (before after : list Cookie) (cookie : Cookie)
         (checker : FirstPartyChecker),
    String.prefix "macaroon-" (Name cookie) = false \/
    (exists e, base64_DecodeString (Value cookie) = Err e) \/
    (exists data e,
       base64_DecodeString (Value cookie) = Ok data /\
       snd (UnmarshalJSON zeroMacaroon data) = Some e) ->
    NewRequest _ _ Service_NewRequest AddClientMacaroon
      (before ++ cookie :: after) checker
    = NewRequest _ _ Service_NewRequest AddClientMacaroon
        (before ++ after) checker.
Proof.
  intros before after cookie checker Hbad. unfold NewRequest.
  rewrite !fold_left_app. cbn [fold_left]. f_equal.
  unfold addCookie.
  destruct Hbad as [Hname|[[e Hb64]|(data & e & Hb64 & Hjson)]].
  - rewrite Hname. reflexivity.
  - rewrite Hb64. destruct (negb _); reflexivity.
  - rewrite Hb64.
    destruct (UnmarshalJSON zeroMacaroon data) as [m err].
    cbn in Hjson. subst err. destruct (negb _); reflexivity.
Qed.

Lemma prefix_macaroon (name : string) :
  String.prefix "macaroon-" ("macaroon-" +:+ name) = true.
Proof.
  destruct name; reflexivity.
Qed.

(** X17.  Macaroons put into cookies come back in the order of the
    cookies.  When base64 decoding undoes encoding and the JSON codec
    gives the document of each macaroon back, [NewRequest] on the cookies
    that carry the JSON texts of a list of macaroons adds exactly those
    macaroons, in that order, to the request made for the checker. *)
Theorem NewRequest_roundtrip :
  forall (items : list (string * Macaroon.t * bytes))
         (checker : FirstPartyChecker),
    base64_inverse ->
    Forall (fun '(name, m, data) =>
              doc_inverse (MarshalDoc m) /\ MarshalJSON m = inl data) items ->
    NewRequest _ _ Service_NewRequest AddClientMacaroon
      (map (fun '(name, m, data) => cookieOf name data) items) checker
    = fold_left AddClientMacaroon (map (fun '(_, m, _) => m) items)
        (Service_NewRequest checker).
Proof.
  intros items checker Hb64 Hall. unfold NewRequest.
  generalize (Service_NewRequest checker) as req.
  induction Hall as [|[[name m] data] items [Hinv Hdata] _ IH]; intros req;
    [reflexivity|].
  cbn [map fold_left]. rewrite <- IH. f_equal.
  unfold addCookie, cookieOf. cbn [Name Value].
  rewrite prefix_macaroon, Hb64. cbn [negb].
  rewrite (UnmarshalJSON_undoes_MarshalJSON zeroMacaroon m data Hinv Hdata).
  reflexivity.
Qed.

End NewRequestResults.

(** ** The further results on the sample data *)

Section TrialResults.

Import Sample Trial httpbakery.

(** The account macaroon with its time caveat verifies. *)
Lemma Verify_true_sound_witness :
  Verify 1 timed secret accept ∅ = Some (true, None) /\
  bindForRequest (Macaroon.sig timed)
    (fold_left foldCaveat (Macaroon.caveats timed)
       (keyedHash secret (Macaroon.id timed)))
    = Macaroon.sig timed /\
  Forall (passable accept ∅) (Macaroon.caveats timed).
Proof.
  assert (H : Verify 1 timed secret accept ∅ = Some (true, None))
    by reflexivity.
  split; [exact H|].
  exact (proj2 (Verify_true_sound 1 timed secret accept ∅ None H)).
Defined.

(** The same macaroon, with a discharge map it has no use for. *)
Lemma Verify_without_third_party_witness :
  Forall (fun cav => Caveat.IsThirdParty cav = false)
    (Macaroon.caveats timed) /\
  Verify 3 timed secret accept {[ guardId := guardDischarge ]}
    = Verify 1 timed secret accept ∅.
Proof.
  assert (H : Forall (fun cav => Caveat.IsThirdParty cav = false)
                (Macaroon.caveats timed))
    by (repeat constructor).
  split; [exact H|].
  exact (Verify_without_third_party 2 timed secret accept
           {[ guardId := guardDischarge ]} H).
Defined.

(** The guard caveat moved to a macaroon with another signature: its
    verification id no longer decrypts. *)
Lemma Verify_decrypt_failure_witness :
  Macaroon.caveats misplaced = [] ++ guard :: [] /\
  Caveat.IsThirdParty guard = true /\
  decrypt (Macaroon.sig other) (Caveat.verificationId guard)
    = Err (ErrOther "wrong key") /\
  Verify 1 misplaced wrong accept {[ guardId := guardDischarge ]}
    = Some (false, Some (ErrDecryptCaveat 0 (ErrOther "wrong key"))).
Proof.
  assert (Hdec : decrypt (Macaroon.sig other) (Caveat.verificationId guard)
                 = Err (ErrOther "wrong key")) by (vm_compute; reflexivity).
  split; [reflexivity|]. split; [reflexivity|]. split; [exact Hdec|].
  exact (Verify_decrypt_failure 0 misplaced wrong accept
           {[ guardId := guardDischarge ]} [] [] guard
           (Macaroon.sig other) (ErrOther "wrong key")
           eq_refl eq_refl eq_refl Hdec).
Defined.

(** The guarded macaroon with a discharge macaroon that was not bound. *)
Lemma Verify_unbound_discharge_witness :
  ({[ guardId := guardUnbound ]} : gmap string Macaroon.t)
    !! Caveat.caveatId guard = Some guardUnbound /\
  bindForRequest (Macaroon.sig guarded) (Macaroon.sig guardUnbound)
    <> Macaroon.sig guardUnbound /\
  Verify 2 guarded secret accept {[ guardId := guardUnbound ]}
    = Some (false, Some ErrSignatureMismatch).
Proof.
  assert (Hdm : ({[ guardId := guardUnbound ]} : gmap string Macaroon.t)
                  !! Caveat.caveatId guard = Some guardUnbound)
    by (vm_compute; reflexivity).
  assert (Hbind : bindForRequest (Macaroon.sig guarded)
                    (Macaroon.sig guardUnbound)
                  <> Macaroon.sig guardUnbound)
    by (intros H; vm_compute in H; discriminate H).
  split; [exact Hdm|]. split; [exact Hbind|].
  apply (Verify_unbound_discharge 0 guarded guardUnbound secret accept
           {[ guardId := guardUnbound ]} [firstParty condition] [] guard
           (Macaroon.sig timed) guardKey).
  - reflexivity.
  - reflexivity.
  - vm_compute. reflexivity.
  - vm_compute. reflexivity.
  - exact Hdm.
  - repeat constructor.
  - reflexivity.
  - intros H. vm_compute in H. discriminate H.
  - exact Hbind.
Defined.


(** A macaroon that is its own discharge. *)
Lemma verify_self_discharge_witness :
  decrypt (keyedHash guardKey (Macaroon.id selfDischarge))
    (x2a :: keyedHash guardKey "again" ++ guardKey) = Ok guardKey /\
  ({[ "again" := selfDischarge ]} : gmap string Macaroon.t) !! "again"
    = Some selfDischarge /\
  verify 5 selfDischarge (Macaroon.sig guarded) guardKey accept
    {[ "again" := selfDischarge ]} = None.
Proof.
  assert (Hdec : decrypt (keyedHash guardKey (Macaroon.id selfDischarge))
                   (x2a :: keyedHash guardKey "again" ++ guardKey)
                 = Ok guardKey) by (vm_compute; reflexivity).
  assert (Hdm : ({[ "again" := selfDischarge ]} : gmap string Macaroon.t)
                  !! "again" = Some selfDischarge)
    by (vm_compute; reflexivity).
  split; [exact Hdec|]. split; [exact Hdm|].
  exact (verify_self_discharge_never_returns selfDischarge guardKey accept
           {[ "again" := selfDischarge ]} _ [] eq_refl eq_refl Hdec Hdm
           5%nat (Macaroon.sig guarded)).
Defined.

(** The account macaroon with its time caveat, through the line codec. *)
Lemma UnmarshalJSON_MarshalJSON_witness :
  MarshalJSON timed = inl (textOf timed) /\
  UnmarshalJSON zeroMacaroon (textOf timed) = (timed, None) /\
  CaveatJSON.UnmarshalJSON zeroCaveat
    (joinLines (caveatLines guard)) = (guard, None).
Proof.
  split; [reflexivity|]. split.
  - apply (proj1 UnmarshalJSON_MarshalJSON zeroMacaroon timed (textOf timed)).
    + intros data [= <-]. vm_compute. reflexivity.
    + reflexivity.
  - apply (proj2 UnmarshalJSON_MarshalJSON zeroCaveat guard
             (joinLines (caveatLines guard))).
    + intros data [= <-]. vm_compute. reflexivity.
    + reflexivity.
Defined.

(** The fields of the first request visited last to first. *)
Lemma copyMissing_any_order_witness :
  reverse (map_to_list firstHeader) ≡ₚ map_to_list firstHeader /\
  copyMissing (reverse (map_to_list firstHeader)) (Some nextHeader)
    = Some (Some (nextHeader ∪ firstHeader)) /\
  (nextHeader ∪ firstHeader) !! "Accept" = Some ["*/*"] /\
  (nextHeader ∪ firstHeader) !! "Authorization" = Some ["Bearer abc"].
Proof.
  assert (Hperm : reverse (map_to_list firstHeader)
                    ≡ₚ map_to_list firstHeader) by apply reverse_Permutation.
  destruct (copyMissing_any_order firstHeader nextHeader
              (reverse (map_to_list firstHeader)) Hperm) as [Hcopy Hlook].
  split; [exact Hperm|]. split; [exact Hcopy|]. split.
  - rewrite (Hlook "Accept"). vm_compute. reflexivity.
  - rewrite (Hlook "Authorization"). vm_compute. reflexivity.
Defined.

(** One redirect, from a request with an authorization header. *)
Lemma CheckRedirect_outcome_witness :
  CheckRedirect {| RequestHeader := Some nextHeader |}
    [ {| RequestHeader := Some firstHeader |} ]
  = Returns None {| RequestHeader := Some (nextHeader ∪ firstHeader) |}.
Proof.
  exact (CheckRedirect_outcome {| RequestHeader := Some nextHeader |}
           [ {| RequestHeader := Some firstHeader |} ] nextHeader eq_refl).
Defined.

(** The same redirect for a request without a header map. *)
Lemma CheckRedirect_nil_header_witness :
  (length [ {| RequestHeader := Some firstHeader |} ] < 10)%nat /\
  firstHeader <> ∅ /\
  CheckRedirect {| RequestHeader := None |}
    [ {| RequestHeader := Some firstHeader |} ] = Panics.
Proof.
  assert (Hlen : (length [ {| RequestHeader := Some firstHeader |} ] < 10)%nat)
    by (cbn; lia).
  assert (Hne : firstHeader <> ∅)
    by (intros H; apply (f_equal (fun h : Header => h !! "Accept")) in H;
        vm_compute in H; discriminate H).
  split; [exact Hlen|]. split; [exact Hne|].
  exact (CheckRedirect_nil_header {| RequestHeader := None |}
           {| RequestHeader := Some firstHeader |} [] firstHeader
           eq_refl Hlen eq_refl Hne).
Defined.

(** Three cookies, the middle one not a macaroon cookie. *)
Lemma NewRequest_skips_cookie_witness :
  String.prefix "macaroon-" "session" = false /\
  NewRequest unit (list Macaroon.t) newRequest addClientMacaroon
    ([cookieOf "a" (textOf timed)]
       ++ {| Name := "session"; Value := "42" |}
       :: [cookieOf "b" (textOf guarded)]) tt
  = NewRequest unit (list Macaroon.t) newRequest addClientMacaroon
      ([cookieOf "a" (textOf timed)] ++ [cookieOf "b" (textOf guarded)]) tt.
Proof.
  split; [reflexivity|].
  apply (NewRequest_skips_cookie newRequest addClientMacaroon
           [cookieOf "a" (textOf timed)] [cookieOf "b" (textOf guarded)]
           {| Name := "session"; Value := "42" |} tt).
  left. reflexivity.
Defined.

(** Two macaroons in two cookies. *)
Lemma NewRequest_roundtrip_witness :
  NewRequest unit (list Macaroon.t) newRequest addClientMacaroon
    [cookieOf "a" (textOf timed); cookieOf "b" (textOf guarded)] tt
  = [timed; guarded].
Proof.
  apply (NewRequest_roundtrip newRequest addClientMacaroon
           [("a", timed, textOf timed); ("b", guarded, textOf guarded)] tt
           sample_base64_inverse).
  repeat constructor.
  - intros data [= <-]. vm_compute. reflexivity.
  - intros data [= <-]. vm_compute. reflexivity.
Defined.

End TrialResults.

(** ** The results on the edge cases *)

Section EdgeResults.

Import Sample Edge.

(** The third-party addition to the account macaroon with its time
    caveat: it succeeds, appends the guard caveat and chains it. *)
Lemma signature_chaining_rule_witness :
  @newNonce primitives 0%nat = (Ok guardKey, 1%nat) /\
  AddThirdPartyCaveat timed thirdPartySecret "is-member" "auth" 0%nat
    = (Ok guardId, guarded, 3%nat) /\
  Macaroon.caveats guarded = [firstParty condition; guard] /\
  Macaroon.sig guarded
    = hmac_sha256 (Macaroon.sig timed)
        (Caveat.verificationId guard ++ bytes_of_string guardId) /\
  Macaroon.sig guarded
    = fold_left
        (fun signature cav =>
           hmac_sha256 signature
             (Caveat.verificationId cav
                ++ bytes_of_string (Caveat.caveatId cav)))
        [firstParty condition; guard]
        (keyedHash secret "account-1").
Proof.
  destruct (signature_chaining_rule (P := primitives))
    as (_ & _ & _ & Hadd & _).
  pose proof (Hadd timed thirdPartySecret "is-member" "auth" 0%nat
                guardKey 1%nat _ _ 2%nat _ 3%nat
                eq_refl eq_refl eq_refl eq_refl) as H.
  cbv zeta in H.
  split; [reflexivity|]. split; [|repeat split; vm_compute; reflexivity].
  rewrite H. vm_compute. reflexivity.
Defined.

(** A macaroon with an empty stored signature, its third-party caveat,
    and the discharge macaroon made from the recovered key and the caveat
    id and bound to that signature: the caveat is not passed.  In the
    recursive call the empty root signature is replaced by the signature
    of the discharge macaroon, which then does not match. *)
Lemma Verify_rejects_discharge_bound_to_empty :
  Macaroon.sig unsigned = [] /\
  Macaroon.caveats unsigned = [] ++ gate :: [] /\
  Caveat.IsThirdParty gate = true /\
  decrypt (keyedHash secret (Macaroon.id unsigned))
    (Caveat.verificationId gate) = Ok guardKey /\
  ({[ "gate" := gateDischarge ]} : gmap string Macaroon.t)
    !! Caveat.caveatId gate
    = Some (Bind (fold_left AddFirstPartyCaveat []
                    (New guardKey (Caveat.caveatId gate) "auth"))
              (Macaroon.sig unsigned)) /\
  forall fuel : nat,
    verifyCaveats accept {[ "gate" := gateDischarge ]}
      (discharge (S fuel) (Macaroon.sig unsigned) accept
         {[ "gate" := gateDischarge ]})
      0 ([] ++ [gate]) (keyedHash secret (Macaroon.id unsigned))
    = Some (Return false (Some ErrSignatureMismatch)) /\
    Verify (S (S fuel)) unsigned secret accept {[ "gate" := gateDischarge ]}
    = Some (false, Some ErrSignatureMismatch).
Proof.
  split; [reflexivity|]. split; [reflexivity|]. split; [reflexivity|].
  split; [vm_compute; reflexivity|]. split; [vm_compute; reflexivity|].
  assert (Hdm : forall fuel,
             discharge (S fuel) (Macaroon.sig unsigned) accept
               {[ "gate" := gateDischarge ]} gateDischarge guardKey
             = Some (false, Some ErrSignatureMismatch)).
  { induction fuel as [|fuel IH]; [vm_compute; reflexivity|].
    unfold discharge in *. apply verify_mono, IH. }
  assert (Hloop : forall fuel,
             verifyCaveats accept {[ "gate" := gateDischarge ]}
               (discharge (S fuel) (Macaroon.sig unsigned) accept
                  {[ "gate" := gateDischarge ]})
               0 ([] ++ [gate]) (keyedHash secret (Macaroon.id unsigned))
             = Some (Return false (Some ErrSignatureMismatch))).
  { intros fuel. cbn [app verifyCaveats]. unfold verifyCaveat.
    replace (Caveat.IsThirdParty gate) with true by reflexivity.
    replace (decrypt (keyedHash secret (Macaroon.id unsigned))
               (Caveat.verificationId gate))
      with (Ok (A := bytes) guardKey) by (vm_compute; reflexivity).
    replace (({[ "gate" := gateDischarge ]} : gmap string Macaroon.t)
               !! Caveat.caveatId gate)
      with (Some gateDischarge) by (vm_compute; reflexivity).
    rewrite Hdm. reflexivity. }
  intros fuel. split; [apply Hloop|].
  rewrite Verify_top_step.
  change (Macaroon.caveats unsigned) with ([] ++ [gate]).
  rewrite Hloop. reflexivity.
Qed.

(** With a JSON codec that writes the condition as Unicode text, and a
    cipher and a base64 codec that do undo themselves, the caveat id made
    for a condition that is not UTF-8 decrypts to another condition. *)
Lemma DecryptThirdPartyCaveatId_changes_condition :
  base64_inverse (P := textPrimitives) /\
  cipher_inverse (P := textPrimitives) /\
  @newNonce textPrimitives 0%nat = (Ok guardKey, 1%nat) /\
  fst (fst (AddThirdPartyCaveat (P := textPrimitives) timed thirdPartySecret
              rawCondition "auth" 0%nat))
    = Ok rawId /\
  DecryptThirdPartyCaveatId (P := textPrimitives) thirdPartySecret rawId
    = Ok {| ThirdPartyCaveatId.RootKey := guardKey;
            ThirdPartyCaveatId.Caveat := string_of_bytes [xef; xbf; xbd] |} /\
  DecryptThirdPartyCaveatId (P := textPrimitives) thirdPartySecret rawId
    <> Ok {| ThirdPartyCaveatId.RootKey := guardKey;
             ThirdPartyCaveatId.Caveat := rawCondition |}.
Proof.
  split; [exact sample_base64_inverse|].
  split; [exact sample_cipher_inverse|].
  split; [reflexivity|]. split; [vm_compute; reflexivity|].
  split; [vm_compute; reflexivity|].
  intros H. vm_compute in H. discriminate H.
Qed.

End EdgeResults.
